(** * timeboard: workshift navigation (timeboard/workshift.py)

    A shallow embedding of the [Workshift] class: its constructor, the two
    navigation methods [rollforward] and [rollback], and the operators
    [+] and [-].  Python integers are [Z]; the duty index arrays of a
    schedule are [list Z]; an exception is an explicit result. *)

From Stdlib Require Import ZArith List String Bool Lia.
From Equations Require Import Equations.
Import ListNotations.

Local Open Scope string_scope.
Local Open Scope Z_scope.

(** ** Python values, exceptions and indexing *)

Module Py.

(** A Python value offered as a location, a label or an operand: an
    integer, or a value that is not a number ([None], a string, ...),
    kept by its [repr]. *)
Inductive pyval : Type :=
| PyInt (z : Z)
| PyNonInt (repr : string).

(** The exceptions that the class raises or lets through. *)
Inductive exn : Type :=
| TypeError
| IndexError
| OutOfBoundsError.

Inductive result (A : Type) : Type :=
| Ok (a : A)
| Raise (e : exn).
Arguments Ok {A} a.
Arguments Raise {A} e.

(** [len(a)] as a Python integer. *)
Definition len {A : Type} (a : list A) : Z := Z.of_nat (List.length a).

(** [a[i]] on an integer array: an index in [[0, len a)] reads the
    element, an index in [[-len a, 0)] counts from the end, any other
    index raises [IndexError]. *)
Definition getitem (a : list Z) (i : Z) : result Z :=
  if (0 <=? i) && (i <? len a) then Ok (nth (Z.to_nat i) a 0)
  else if (- len a <=? i) && (i <? 0) then Ok (nth (Z.to_nat (len a + i)) a 0)
  else Raise IndexError.

(** [x > v] for an integer [x]: ordering an integer against a value
    that is not a number is a [TypeError]. *)
Definition gt (x : Z) (v : pyval) : result bool :=
  match v with
  | PyInt p => Ok (x >? p)
  | PyNonInt _ => Raise TypeError
  end.

End Py.
Export Py.

(** ** numpy.searchsorted *)

Module Numpy.

(** The left-side binary search behind [searchsorted(a, v)]:
    [while min_idx < max_idx: mid = min_idx + ((max_idx - min_idx) >> 1);
     if a[mid] < key: min_idx = mid + 1 else: max_idx = mid]. *)
Equations? binsearch_left (a : list Z) (key : Z) (min_idx max_idx : Z) : Z
  by wf (Z.to_nat (max_idx - min_idx)) lt :=
  binsearch_left a key min_idx max_idx with Z_lt_dec min_idx max_idx := {
    | right _ => min_idx
    | left _ with Z_lt_dec
          (nth (Z.to_nat (min_idx + Z.shiftr (max_idx - min_idx) 1)) a 0) key := {
        | left _ =>
            binsearch_left a key
              (min_idx + Z.shiftr (max_idx - min_idx) 1 + 1) max_idx
        | right _ =>
            binsearch_left a key
              min_idx (min_idx + Z.shiftr (max_idx - min_idx) 1) } }.
Proof.
  all: rewrite Z.shiftr_div_pow2 by lia; change (2 ^ 1) with 2;
    assert (0 <= (max_idx - min_idx) / 2 < max_idx - min_idx)
      by (split; [apply Z.div_pos | apply Z.div_lt]; lia);
    lia.
Qed.

(** [searchsorted(a, v)] with the default [side='left'], for one
    scalar [v] and an integer array [a]. *)
Definition searchsorted (a : list Z) (v : pyval) : result Z :=
  match v with
  | PyInt key => Ok (binsearch_left a key 0 (len a))
  | PyNonInt _ => Raise TypeError
  end.

(** The index that [searchsorted] returns is a 64-bit numpy integer and
    [i + steps] is formed in that type: a step count takes part in the
    sum only if it fits. *)
Definition fits_int64 (z : Z) : bool := (- 2 ^ 63 <=? z) && (z <? 2 ^ 63).

End Numpy.
Export Numpy.

(** ** The collaborators: schedule and timeboard *)

(** What [schedule.label(location)] does: it returns the label, or it
    rejects the location as not integer-like ([TypeError]) or as out of
    range ([IndexError]). *)
Inductive label_result : Type :=
| LabelOk (l : pyval)
| LabelTypeError
| LabelIndexError.

(** The schedule as the workshift sees it.  Its labelling and its duty
    judgement are external: any functions. *)
Record Schedule : Type := {
  label : pyval -> label_result;
  is_on_duty : pyval -> bool;
  is_off_duty : pyval -> bool;
  on_duty_index : list Z;
  off_duty_index : list Z;
  index : list Z;
  activity : string
}.

Record Timeboard : Type := {
  default_schedule : Schedule;
  compact_str : string
}.

(** ** Workshift *)

Record Workshift : Type := {
  _label : pyval;
  _tb : Timeboard;
  _loc : pyval;
  _schedule : Schedule
}.

(** The diagnostic handed to [timeboard._handle_out_of_bounds]: the
    method, the workshift (its location stands for [to_timestamp()]),
    the steps, the duty and the schedule's activity. *)
Record oob_message : Type := {
  msg_method : string;
  msg_ws : pyval;
  msg_steps : Z;
  msg_duty : string;
  msg_activity : string
}.

(** How a navigation call ends: it returns a workshift, it returns
    whatever [self._tb._handle_out_of_bounds(msg)] does, or an exception
    leaves it. *)
Inductive outcome : Type :=
| Returned (ws : Workshift)
| HandleOutOfBounds (msg : oob_message)
| Raised (e : exn).

(** [Workshift.__init__] *)
Definition Workshift_init (timeboard : Timeboard) (location : pyval)
    (schedule : option Schedule) : result Workshift :=
  let schedule :=
    match schedule with
    | None => default_schedule timeboard
    | Some s => s
    end in
  match label schedule location with
  | LabelTypeError => Raise TypeError
  | LabelIndexError => Raise OutOfBoundsError
  | LabelOk l =>
      Ok {| _label := l; _tb := timeboard; _loc := location;
            _schedule := schedule |}
  end.

(** The call [Workshift(tb, loc, schedule)] in return position. *)
Definition construct (timeboard : Timeboard) (location : Z)
    (schedule : Schedule) : outcome :=
  match Workshift_init timeboard (PyInt location) (Some schedule) with
  | Ok ws => Returned ws
  | Raise e => Raised e
  end.

Definition Workshift_is_on_duty (self : Workshift) : bool :=
  is_on_duty (_schedule self) (_loc self).

Definition Workshift_is_off_duty (self : Workshift) : bool :=
  is_off_duty (_schedule self) (_loc self).

Definition duty_is (duty tag : string) : bool := String.eqb duty tag.

(** [Workshift.rollforward] *)
Definition rollforward (self : Workshift) (steps : Z) (duty : string)
    : outcome :=
  let schedule := _schedule self in
  let idx := on_duty_index schedule in
  let idx :=
    if duty_is duty "off"
       || (duty_is duty "same" && Workshift_is_off_duty self)
       || (duty_is duty "alt" && Workshift_is_on_duty self)
    then off_duty_index schedule
    else if duty_is duty "any" then index schedule
    else idx in
  let len_idx := len idx in
  match searchsorted idx (_loc self) with
  | Raise e => Raised e
  | Ok i =>
      if (i =? len_idx) || (i + steps <? 0) || (i + steps >=? len_idx)
      then HandleOutOfBounds
             {| msg_method := "Rollforward"; msg_ws := _loc self;
                msg_steps := steps; msg_duty := duty;
                msg_activity := activity schedule |}
      else
        match getitem idx (i + steps) with
        | Raise e => Raised e
        | Ok loc => construct (_tb self) loc schedule
        end
  end.

(** The loop of [rollback]:
    [while i >= 0 and idx[i] > self._loc: i -= 1]. *)
Equations? scan_back (idx : list Z) (loc : pyval) (i : Z) : result Z
  by wf (Z.to_nat (i + 1)) lt :=
  scan_back idx loc i with Z_ge_dec i 0 := {
    | right _ => Ok i
    | left _ with getitem idx i := {
        | Raise e => Raise e
        | Ok x with gt x loc := {
            | Raise e => Raise e
            | Ok false => Ok i
            | Ok true => scan_back idx loc (i - 1) } } }.
Proof. lia. Qed.

(** [Workshift.rollback] *)
Definition rollback (self : Workshift) (steps : Z) (duty : string)
    : outcome :=
  let schedule := _schedule self in
  let idx := on_duty_index schedule in
  let idx :=
    if duty_is duty "off"
       || (duty_is duty "same" && Workshift_is_off_duty self)
       || (duty_is duty "alt" && Workshift_is_on_duty self)
    then off_duty_index schedule
    else if duty_is duty "any" then index schedule
    else idx in
  let len_idx := len idx in
  match scan_back idx (_loc self) (len_idx - 1) with
  | Raise e => Raised e
  | Ok i =>
      if (i =? -1) || (i - steps <? 0) || (i - steps >=? len_idx)
      then HandleOutOfBounds
             {| msg_method := "Rollback"; msg_ws := _loc self;
                msg_steps := steps; msg_duty := duty;
                msg_activity := activity schedule |}
      else
        match getitem idx (i - steps) with
        | Raise e => Raised e
        | Ok loc => construct (_tb self) loc schedule
        end
  end.

(** The right operand of [+] and [-]: a plain value or a workshift. *)
Inductive operand : Type :=
| OpVal (v : pyval)
| OpWorkshift (w : Workshift).

Inductive binop_result : Type :=
| NotImplemented
| Computed (o : outcome).

(** [Workshift.__add__] *)
Definition Workshift_add (self : Workshift) (other : operand)
    : binop_result :=
  match other with
  | OpVal (PyInt n) => Computed (rollforward self n "on")
  | _ => NotImplemented
  end.

(** [Workshift.__sub__] *)
Definition Workshift_sub (self : Workshift) (other : operand)
    : binop_result :=
  match other with
  | OpVal (PyInt n) => Computed (rollback self n "on")
  | OpWorkshift _ => NotImplemented
  | _ => NotImplemented
  end.

(** ** A sample schedule: ten workshifts, the even ones on duty *)

Module Sample.

Definition in_range (z : Z) : bool := (-10 <=? z) && (z <? 10).

Definition schedule : Schedule := {|
  label := fun v =>
    match v with
    | PyInt z => if in_range z then LabelOk (PyInt (z mod 2))
                 else LabelIndexError
    | PyNonInt _ => LabelTypeError
    end;
  is_on_duty := fun v =>
    match v with PyInt z => Z.even z | PyNonInt _ => false end;
  is_off_duty := fun v =>
    match v with PyInt z => Z.odd z | PyNonInt _ => false end;
  on_duty_index := [0; 2; 4; 6; 8];
  off_duty_index := [1; 3; 5; 7; 9];
  index := [0; 1; 2; 3; 4; 5; 6; 7; 8; 9];
  activity := "sample"
|}.

Definition tb : Timeboard :=
  {| default_schedule := schedule; compact_str := "tb" |}.

(** The workshift at location [z] of the sample timeboard. *)
Definition ws (z : Z) : Workshift :=
  {| _label := PyInt (z mod 2); _tb := tb; _loc := PyInt z;
     _schedule := schedule |}.

End Sample.

(** ** The two stages of a navigation call, taken apart *)

(** Stage one of both methods: the index array that [duty] selects. *)
Definition selected_index (self : Workshift) (duty : string) : list Z :=
  let schedule := _schedule self in
  if duty_is duty "off"
     || (duty_is duty "same" && Workshift_is_off_duty self)
     || (duty_is duty "alt" && Workshift_is_on_duty self)
  then off_duty_index schedule
  else if duty_is duty "any" then index schedule
  else on_duty_index schedule.

Definition forward_message (self : Workshift) (steps : Z) (duty : string)
    : oob_message :=
  {| msg_method := "Rollforward"; msg_ws := _loc self; msg_steps := steps;
     msg_duty := duty; msg_activity := activity (_schedule self) |}.

Definition backward_message (self : Workshift) (steps : Z) (duty : string)
    : oob_message :=
  {| msg_method := "Rollback"; msg_ws := _loc self; msg_steps := steps;
     msg_duty := duty; msg_activity := activity (_schedule self) |}.

(** [rollforward] from [len_idx = len(idx)] on, for a given [idx]. *)
Definition forward_walk (idx : list Z) (self : Workshift) (steps : Z)
    (duty : string) : outcome :=
  match searchsorted idx (_loc self) with
  | Raise e => Raised e
  | Ok i =>
      if (i =? len idx) || (i + steps <? 0) || (i + steps >=? len idx)
      then HandleOutOfBounds (forward_message self steps duty)
      else
        match getitem idx (i + steps) with
        | Raise e => Raised e
        | Ok loc => construct (_tb self) loc (_schedule self)
        end
  end.

(** [rollback] from [len_idx = len(idx)] on, for a given [idx]. *)
Definition backward_walk (idx : list Z) (self : Workshift) (steps : Z)
    (duty : string) : outcome :=
  match scan_back idx (_loc self) (len idx - 1) with
  | Raise e => Raised e
  | Ok i =>
      if (i =? -1) || (i - steps <? 0) || (i - steps >=? len idx)
      then HandleOutOfBounds (backward_message self steps duty)
      else
        match getitem idx (i - steps) with
        | Raise e => Raised e
        | Ok loc => construct (_tb self) loc (_schedule self)
        end
  end.

(** The outcome [o] with the duty named in its diagnostic set to [duty]. *)
Definition with_duty (duty : string) (o : outcome) : outcome :=
  match o with
  | HandleOutOfBounds m =>
      HandleOutOfBounds
        {| msg_method := msg_method m; msg_ws := msg_ws m;
           msg_steps := msg_steps m; msg_duty := duty;
           msg_activity := msg_activity m |}
  | _ => o
  end.

(** A workshift as the constructor builds it from its own fields. *)
Definition constructed (self : Workshift) : Prop :=
  Workshift_init (_tb self) (_loc self) (Some (_schedule self)) = Ok self.

(** The schedule resolves every position of [seq] to a label. *)
Definition resolves (s : Schedule) (seq : list Z) : Prop :=
  forall x, In x seq -> exists l, label s (PyInt x) = LabelOk l.

(** ** The specification's vocabulary *)

Module Spec.

(** The closed enumeration of duty modes and the tag of each. *)
Inductive DutyMode : Type := On | Off | Same | Alt | Any.

Definition tag (m : DutyMode) : string :=
  match m with
  | On => "on"
  | Off => "off"
  | Same => "same"
  | Alt => "alt"
  | Any => "any"
  end.

(** [indexFor(mode, startDuty)]: the sequence to walk, given the mode
    and whether the start position is on duty. *)
Definition indexFor (s : Schedule) (m : DutyMode) (start_on_duty : bool)
    : list Z :=
  match m with
  | On => on_duty_index s
  | Off => off_duty_index s
  | Same => if start_on_duty then on_duty_index s else off_duty_index s
  | Alt => if start_on_duty then off_duty_index s else on_duty_index s
  | Any => index s
  end.

(** [positionOfOrAfter(seq, pos)]: the smallest index [i] such that
    [seq[i] >= pos]; [len(seq)] if none. *)
Fixpoint positionOfOrAfter (seq : list Z) (pos : Z) : Z :=
  match seq with
  | [] => 0
  | x :: rest => if pos <=? x then 0 else 1 + positionOfOrAfter rest pos
  end.

(** [positionOfOrBefore(seq, pos)]: the largest index [i] such that
    [seq[i] <= pos]; [-1] if none. *)
Fixpoint positionOfOrBefore (seq : list Z) (pos : Z) : Z :=
  match seq with
  | [] => -1
  | x :: rest =>
      let j := positionOfOrBefore rest pos in
      if 0 <=? j then 1 + j
      else if x <=? pos then 0
      else -1
  end.

(** A strictly increasing sequence (ascending, no duplicates). *)
Fixpoint strictly_increasing (seq : list Z) : bool :=
  match seq with
  | x :: (y :: _) as rest => (x <? y) && strictly_increasing rest
  | _ => true
  end.

(** [seq[i]] for an index known to be in range. *)
Definition at_index (seq : list Z) (i : Z) : Z := nth (Z.to_nat i) seq 0.

(** [i] is the smallest index with [seq[i] >= pos], or [len seq]. *)
Definition smallest_index_ge (seq : list Z) (pos i : Z) : Prop :=
  0 <= i <= len seq
  /\ (forall j, 0 <= j < i -> at_index seq j < pos)
  /\ (i < len seq -> pos <= at_index seq i).

(** [i] is the largest index with [seq[i] <= pos], or [-1]. *)
Definition largest_index_le (seq : list Z) (pos i : Z) : Prop :=
  -1 <= i < len seq
  /\ (forall j, i < j < len seq -> pos < at_index seq j)
  /\ (0 <= i -> at_index seq i <= pos).

(** The sequence seen from the other end: order and signs reversed. *)
Definition mirror (seq : list Z) : list Z := rev (map Z.opp seq).

(** No entry at or after [pos]: [rollforward] has no zero-step anchor. *)
Definition none_at_or_after (seq : list Z) (pos : Z) : Prop :=
  forall x, In x seq -> x < pos.

(** No entry at or before [pos]: [rollback] has no zero-step anchor. *)
Definition none_at_or_before (seq : list Z) (pos : Z) : Prop :=
  forall x, In x seq -> pos < x.

End Spec.
Import Spec.

(** The call ended in [self._tb._handle_out_of_bounds(...)]. *)
Definition signals_out_of_bounds (o : outcome) : Prop :=
  exists msg, o = HandleOutOfBounds msg.

(** ** Vocabulary for the further properties *)

(** Workshifts are ordered by their integer position. *)
Definition precedes (a b : Workshift) : Prop :=
  match _loc a, _loc b with
  | PyInt x, PyInt y => x < y
  | _, _ => False
  end.

(** A duty whose sequence does not depend on the start workshift: any
    duty but ['same'] and ['alt']. *)
Definition fixed_duty (duty : string) : bool :=
  negb (duty_is duty "same") && negb (duty_is duty "alt").

(** At position [p] the schedule's duty flags and its two duty indexes
    agree: the off-duty flag negates the on-duty flag, and [p] is listed
    in the index of its own duty only. *)
Definition duty_consistent_at (s : Schedule) (p : Z) : Prop :=
  is_off_duty s (PyInt p) = negb (is_on_duty s (PyInt p))
  /\ (In p (on_duty_index s) <-> is_on_duty s (PyInt p) = true)
  /\ (In p (off_duty_index s) <-> is_on_duty s (PyInt p) = false).

(** The full index of a timeline of [n] workshifts: the positions
    [0, 1, ..., n - 1] in order. *)
Definition full_index (n : nat) : list Z := map Z.of_nat (seq 0 n).

(** * Properties *)

Example sample_rollforward_0_on :
  rollforward (Sample.ws 3) 0 "on" = Returned (Sample.ws 4).
Proof. reflexivity. Qed.

Example sample_rollforward_1_on :
  rollforward (Sample.ws 3) 1 "on" = Returned (Sample.ws 6).
Proof. reflexivity. Qed.

Example sample_rollback_0_on :
  rollback (Sample.ws 3) 0 "on" = Returned (Sample.ws 2).
Proof. reflexivity. Qed.

Example sample_rollforward_0_same :
  rollforward (Sample.ws 3) 0 "same" = Returned (Sample.ws 3).
Proof. reflexivity. Qed.

Example sample_rollforward_1_alt :
  rollforward (Sample.ws 3) 1 "alt" = Returned (Sample.ws 6).
Proof. reflexivity. Qed.

Example sample_rollforward_past_the_end :
  rollforward (Sample.ws 0) 10 "on"
  = HandleOutOfBounds (forward_message (Sample.ws 0) 10 "on").
Proof. reflexivity. Qed.

Example sample_rollforward_last_off :
  rollforward (Sample.ws 9) 0 "off" = Returned (Sample.ws 9)
  /\ rollforward (Sample.ws 9) 1 "off"
     = HandleOutOfBounds (forward_message (Sample.ws 9) 1 "off").
Proof. split; reflexivity. Qed.

(** [ws + 1] counts on-duty workshifts only; duty ['any'] would stop on
    the very next workshift. *)
Example sample_add_is_not_any :
  Workshift_add (Sample.ws 3) (OpVal (PyInt 1)) = Computed (Returned (Sample.ws 6))
  /\ rollforward (Sample.ws 3) 1 "any" = Returned (Sample.ws 4).
Proof. split; reflexivity. Qed.

(** A location that is not an integer is refused with [TypeError], one
    past the end with [OutOfBoundsError]; [-1] is accepted. *)
Example sample_construction :
  Workshift_init Sample.tb (PyNonInt "None") None = Raise TypeError
  /\ Workshift_init Sample.tb (PyInt 10) None = Raise OutOfBoundsError
  /\ Workshift_init Sample.tb (PyInt (-1)) None = Ok (Sample.ws (-1)).
Proof. repeat split. Qed.

(** ** Index arithmetic on sequences *)

Section Sequences.

Lemma len_nonneg {A : Type} (a : list A) : 0 <= len a.
Proof. unfold len. lia. Qed.

Lemma len_cons {A : Type} (x : A) (a : list A) : len (x :: a) = 1 + len a.
Proof. unfold len. simpl List.length. lia. Qed.

Lemma at_index_head (x : Z) (seq : list Z) : at_index (x :: seq) 0 = x.
Proof. reflexivity. Qed.

Lemma at_index_tail (x : Z) (seq : list Z) (i : Z) :
  0 < i -> at_index (x :: seq) i = at_index seq (i - 1).
Proof.
  intros Hi. unfold at_index.
  replace (Z.to_nat i) with (S (Z.to_nat (i - 1))) by lia.
  reflexivity.
Qed.

Lemma at_index_In (seq : list Z) (i : Z) :
  0 <= i < len seq -> In (at_index seq i) seq.
Proof.
  intros Hi. unfold at_index, len in *. apply nth_In. lia.
Qed.

Lemma In_at_index (seq : list Z) (x : Z) :
  In x seq -> exists i, 0 <= i < len seq /\ at_index seq i = x.
Proof.
  intros Hin. destruct (In_nth seq x 0 Hin) as [n [Hn Hx]].
  exists (Z.of_nat n). unfold at_index, len.
  rewrite Nat2Z.id. split; [lia | exact Hx].
Qed.

Lemma strictly_increasing_cons (x : Z) (seq : list Z) :
  strictly_increasing (x :: seq) = true ->
  strictly_increasing seq = true /\ forall y, In y seq -> x < y.
Proof.
  revert x. induction seq as [| y rest IH]; intros x H.
  - split; [reflexivity | intros y []].
  - change (((x <? y) && strictly_increasing (y :: rest)) = true) in H.
    apply andb_true_iff in H. destruct H as [Hxy Hrest].
    apply Z.ltb_lt in Hxy. split; [exact Hrest |].
    intros z [-> | Hz]; [exact Hxy |].
    destruct (IH y Hrest) as [_ Hall]. specialize (Hall z Hz). lia.
Qed.

(** Entries of a strictly increasing sequence grow with the index. *)
Lemma strictly_increasing_at (seq : list Z) :
  strictly_increasing seq = true ->
  forall i j, 0 <= i -> i < j -> j < len seq ->
              at_index seq i < at_index seq j.
Proof.
  induction seq as [| x rest IH]; intros Hs i j Hi Hij Hj.
  - unfold len in Hj. simpl in Hj. lia.
  - destruct (strictly_increasing_cons _ _ Hs) as [Hrest Hall].
    rewrite len_cons in Hj.
    rewrite (at_index_tail x rest j) by lia.
    destruct (Z.eq_dec i 0) as [-> | Hne].
    + rewrite at_index_head. apply Hall, at_index_In. lia.
    + rewrite (at_index_tail x rest i) by lia.
      apply IH; [exact Hrest | lia | lia | lia].
Qed.

Lemma strictly_increasing_at_le (seq : list Z) :
  strictly_increasing seq = true ->
  forall i j, 0 <= i -> i <= j -> j < len seq ->
              at_index seq i <= at_index seq j.
Proof.
  intros Hs i j Hi Hij Hj.
  destruct (Z.eq_dec i j) as [-> | Hne]; [lia |].
  pose proof (strictly_increasing_at seq Hs i j). lia.
Qed.

(** Both characterisations single out one index. *)
Lemma smallest_index_ge_unique (seq : list Z) (pos i j : Z) :
  smallest_index_ge seq pos i -> smallest_index_ge seq pos j -> i = j.
Proof.
  intros (Hi & Hbelow_i & Hat_i) (Hj & Hbelow_j & Hat_j).
  destruct (Z.lt_trichotomy i j) as [Hlt | [Heq | Hgt]]; [| exact Heq |].
  - specialize (Hbelow_j i). lia.
  - specialize (Hbelow_i j). lia.
Qed.

Lemma largest_index_le_unique (seq : list Z) (pos i j : Z) :
  largest_index_le seq pos i -> largest_index_le seq pos j -> i = j.
Proof.
  intros (Hi & Habove_i & Hat_i) (Hj & Habove_j & Hat_j).
  destruct (Z.lt_trichotomy i j) as [Hlt | [Heq | Hgt]]; [| exact Heq |].
  - specialize (Habove_i j). lia.
  - specialize (Habove_j i). lia.
Qed.

Lemma positionOfOrAfter_cons (x : Z) (rest : list Z) (pos : Z) :
  positionOfOrAfter (x :: rest) pos
  = if pos <=? x then 0 else 1 + positionOfOrAfter rest pos.
Proof. reflexivity. Qed.

Lemma positionOfOrBefore_cons (x : Z) (rest : list Z) (pos : Z) :
  positionOfOrBefore (x :: rest) pos
  = if 0 <=? positionOfOrBefore rest pos
    then 1 + positionOfOrBefore rest pos
    else if x <=? pos then 0 else -1.
Proof. reflexivity. Qed.

(** The specification's searches meet their characterisations. *)
Lemma positionOfOrAfter_smallest (seq : list Z) (pos : Z) :
  smallest_index_ge seq pos (positionOfOrAfter seq pos).
Proof.
  induction seq as [| x rest IH].
  - repeat split; simpl; unfold len; simpl; lia.
  - destruct IH as (Hr & Hbelow & Hat). unfold smallest_index_ge.
    rewrite positionOfOrAfter_cons.
    destruct (Z.leb_spec pos x) as [Hle | Hgt].
    + repeat split.
      * lia.
      * pose proof (len_nonneg (x :: rest)). lia.
      * intros j Hj. lia.
      * intros _. rewrite at_index_head. exact Hle.
    + rewrite len_cons. repeat split.
      * lia.
      * lia.
      * intros j Hj. destruct (Z.eq_dec j 0) as [-> | Hne].
        -- rewrite at_index_head. exact Hgt.
        -- rewrite at_index_tail by lia. apply Hbelow. lia.
      * intros Hlt. rewrite at_index_tail by lia.
        replace (1 + positionOfOrAfter rest pos - 1)
          with (positionOfOrAfter rest pos) by lia.
        apply Hat. lia.
Qed.

Lemma positionOfOrBefore_largest (seq : list Z) (pos : Z) :
  largest_index_le seq pos (positionOfOrBefore seq pos).
Proof.
  induction seq as [| x rest IH].
  - repeat split; simpl; unfold len; simpl; lia.
  - destruct IH as (Hr & Habove & Hat). unfold largest_index_le.
    rewrite positionOfOrBefore_cons. rewrite len_cons.
    destruct (Z.leb_spec 0 (positionOfOrBefore rest pos)) as [Hfound | Hnone].
    + repeat split.
      * lia.
      * lia.
      * intros j Hj. rewrite at_index_tail by lia. apply Habove. lia.
      * intros _. rewrite at_index_tail by lia.
        replace (1 + positionOfOrBefore rest pos - 1)
          with (positionOfOrBefore rest pos) by lia.
        apply Hat. exact Hfound.
    + destruct (Z.leb_spec x pos) as [Hle | Hgt].
      * repeat split.
        -- lia.
        -- lia.
        -- intros j Hj. rewrite at_index_tail by lia. apply Habove. lia.
        -- intros _. rewrite at_index_head. exact Hle.
      * repeat split.
        -- lia.
        -- lia.
        -- intros j Hj. destruct (Z.eq_dec j 0) as [-> | Hne].
           ++ rewrite at_index_head. exact Hgt.
           ++ rewrite at_index_tail by lia. apply Habove. lia.
        -- intros Hneg. lia.
Qed.

End Sequences.

(** ** The two searches *)

Section Searches.

Lemma shiftr_one_bounds (lo hi : Z) :
  lo < hi ->
  lo <= lo + Z.shiftr (hi - lo) 1 < hi.
Proof.
  intros Hlt. rewrite Z.shiftr_div_pow2 by lia. change (2 ^ 1) with 2.
  assert (0 <= (hi - lo) / 2 < hi - lo)
    by (split; [apply Z.div_pos | apply Z.div_lt]; lia).
  lia.
Qed.

(** The binary search keeps "everything left of [min_idx] is below the
    key, everything from [max_idx] on is not", and ends on the smallest
    index whose entry is not below the key. *)
Lemma binsearch_left_smallest (a : list Z) (key lo hi : Z) :
  (forall i j, 0 <= i -> i <= j -> j < len a ->
               at_index a i <= at_index a j) ->
  0 <= lo <= hi -> hi <= len a ->
  (forall j, 0 <= j < lo -> at_index a j < key) ->
  (forall j, hi <= j < len a -> key <= at_index a j) ->
  smallest_index_ge a key (binsearch_left a key lo hi).
Proof.
  intros Hmono. funelim (binsearch_left a key lo hi);
    intros Hrange Hhi Hbelow Habove.
  - (* the loop has ended: min_idx = max_idx *)
    assert (min_idx = max_idx) by lia. subst max_idx.
    repeat split; try lia; [exact Hbelow |].
    intros Hlt. apply Habove. lia.
  - (* a[mid] < key: the answer lies right of mid *)
    pose proof (shiftr_one_bounds min_idx max_idx ltac:(assumption)) as Hmid.
    set (mid := min_idx + Z.shiftr (max_idx - min_idx) 1) in *.
    match goal with
    | IH : context [smallest_index_ge _ _ (binsearch_left _ _ _ _)] |- _ =>
        apply IH; try assumption; try lia
    end.
    intros j Hj. fold (at_index a mid) in *.
    pose proof (Hmono j mid). lia.
  - (* a[mid] >= key: the answer is mid or left of it *)
    pose proof (shiftr_one_bounds min_idx max_idx ltac:(assumption)) as Hmid.
    set (mid := min_idx + Z.shiftr (max_idx - min_idx) 1) in *.
    match goal with
    | IH : context [smallest_index_ge _ _ (binsearch_left _ _ _ _)] |- _ =>
        apply IH; try assumption; try lia
    end.
    intros j Hj. fold (at_index a mid) in *.
    pose proof (Hmono mid j). lia.
Qed.

(** On a strictly increasing array [searchsorted] is the
    specification's [positionOfOrAfter]. *)
Lemma searchsorted_positionOfOrAfter (a : list Z) (key : Z) :
  strictly_increasing a = true ->
  searchsorted a (PyInt key) = Ok (positionOfOrAfter a key).
Proof.
  intros Hs. unfold searchsorted. f_equal.
  apply (smallest_index_ge_unique a key).
  - apply binsearch_left_smallest.
    + apply strictly_increasing_at_le. exact Hs.
    + pose proof (len_nonneg a). lia.
    + lia.
    + intros j Hj. lia.
    + intros j Hj. lia.
  - apply positionOfOrAfter_smallest.
Qed.

Lemma getitem_in_range (a : list Z) (i : Z) :
  0 <= i < len a -> getitem a i = Ok (at_index a i).
Proof.
  intros Hi. unfold getitem.
  destruct (Z.leb_spec 0 i); [| lia].
  destruct (Z.ltb_spec i (len a)); [| lia].
  reflexivity.
Qed.

(** The backward scan started at [i] stops on the largest index at or
    below [i] whose entry is not above the position. *)
Lemma scan_back_largest (idx : list Z) (p i : Z) :
  -1 <= i < len idx ->
  (forall j, i < j < len idx -> p < at_index idx j) ->
  exists r, scan_back idx (PyInt p) i = Ok r /\ largest_index_le idx p r.
Proof.
  remember (PyInt p) as loc eqn:Hloc.
  funelim (scan_back idx loc i); intros Hrange Habove.
  - (* i < 0: the scan ran off the front *)
    exists i. split; [reflexivity |]. repeat split; try lia.
    intros j Hj. apply Habove. lia.
  - (* idx[i] cannot raise: i is in range *)
    match goal with
    | H : getitem _ _ = Raise _ |- _ =>
        rewrite getitem_in_range in H by lia; discriminate H
    end.
  - (* idx[i] > p: go on with i - 1 *)
    match goal with
    | H : getitem _ _ = Ok _ |- _ =>
        rewrite getitem_in_range in H by lia; injection H as <-
    end.
    match goal with
    | H : gt _ _ = Ok true |- _ => injection H as Hgt
    end.
    match goal with
    | IH : context [largest_index_le] |- _ =>
        apply IH; [reflexivity | lia |]
    end.
    intros j Hj. destruct (Z.eq_dec j i) as [-> | Hne]; [lia |].
    apply Habove. lia.
  - (* idx[i] <= p: the scan stops here *)
    match goal with
    | H : getitem _ _ = Ok _ |- _ =>
        rewrite getitem_in_range in H by lia; injection H as <-
    end.
    match goal with
    | H : gt _ _ = Ok false |- _ => injection H as Hgt
    end.
    exists i. split; [reflexivity |]. repeat split; try lia.
    exact Habove.
  - (* an integer position always compares *)
    match goal with
    | H : gt _ _ = Raise _ |- _ => discriminate H
    end.
Qed.

(** The scan of [rollback] is the specification's
    [positionOfOrBefore], on every array. *)
Lemma scan_back_positionOfOrBefore (idx : list Z) (p : Z) :
  scan_back idx (PyInt p) (len idx - 1) = Ok (positionOfOrBefore idx p).
Proof.
  destruct (scan_back_largest idx p (len idx - 1)) as [r [Hr Hlargest]].
  - pose proof (len_nonneg idx). lia.
  - intros j Hj. lia.
  - rewrite Hr. f_equal.
    apply (largest_index_le_unique idx p); [exact Hlargest |].
    apply positionOfOrBefore_largest.
Qed.

End Searches.

(** ** Forward and backward anchors against each other *)

Section Anchors.

Variable seq : list Z.
Variable p : Z.
Hypothesis Hincreasing : strictly_increasing seq = true.

(** A position that is in the sequence is the anchor of both searches. *)
Lemma anchors_of_member :
  In p seq ->
  positionOfOrAfter seq p = positionOfOrBefore seq p
  /\ 0 <= positionOfOrAfter seq p < len seq
  /\ at_index seq (positionOfOrAfter seq p) = p.
Proof.
  intros Hin. destruct (In_at_index seq p Hin) as [k [Hk Hat_k]].
  destruct (positionOfOrAfter_smallest seq p) as (Hf & Hbelow & Hat_f).
  destruct (positionOfOrBefore_largest seq p) as (Hb & Habove & Hat_b).
  set (f := positionOfOrAfter seq p) in *.
  set (b := positionOfOrBefore seq p) in *.
  assert (Hfk : f = k).
  { destruct (Z.lt_trichotomy f k) as [Hlt | [Heq | Hgt]]; [| exact Heq |].
    - pose proof (strictly_increasing_at seq Hincreasing f k). lia.
    - specialize (Hbelow k). lia. }
  assert (Hbk : b = k).
  { destruct (Z.lt_trichotomy b k) as [Hlt | [Heq | Hgt]]; [| exact Heq |].
    - specialize (Habove k). lia.
    - pose proof (strictly_increasing_at seq Hincreasing k b). lia. }
  split; [lia |]. split; [lia |]. rewrite Hfk. exact Hat_k.
Qed.

(** Otherwise the forward anchor is one entry after the backward one. *)
Lemma anchors_of_non_member :
  ~ In p seq ->
  positionOfOrAfter seq p = positionOfOrBefore seq p + 1.
Proof.
  intros Hnot.
  destruct (positionOfOrAfter_smallest seq p) as (Hf & Hbelow & Hat_f).
  destruct (positionOfOrBefore_largest seq p) as (Hb & Habove & Hat_b).
  set (f := positionOfOrAfter seq p) in *.
  set (b := positionOfOrBefore seq p) in *.
  assert (Hne : forall j, 0 <= j < len seq -> at_index seq j <> p).
  { intros j Hj Heq. apply Hnot. rewrite <- Heq. apply at_index_In. exact Hj. }
  destruct (Z.lt_trichotomy f (b + 1)) as [Hlt | [Heq | Hgt]]; [| exact Heq |].
  - pose proof (strictly_increasing_at_le seq Hincreasing f b).
    pose proof (Hne f). pose proof (Hne b). lia.
  - specialize (Hbelow (b + 1)). specialize (Habove (b + 1)). lia.
Qed.

End Anchors.

(** ** Normal forms of the two methods *)

Section NormalForms.

Variable self : Workshift.
Variable p : Z.
Hypothesis Hloc : _loc self = PyInt p.

Lemma rollforward_walks (steps : Z) (duty : string) :
  rollforward self steps duty
  = forward_walk (selected_index self duty) self steps duty.
Proof. reflexivity. Qed.

Lemma rollback_walks (steps : Z) (duty : string) :
  rollback self steps duty
  = backward_walk (selected_index self duty) self steps duty.
Proof. reflexivity. Qed.

Lemma forward_walk_normal (idx : list Z) (steps : Z) (duty : string) :
  strictly_increasing idx = true ->
  forward_walk idx self steps duty
  = let i := positionOfOrAfter idx p in
    if (i =? len idx) || (i + steps <? 0) || (i + steps >=? len idx)
    then HandleOutOfBounds (forward_message self steps duty)
    else construct (_tb self) (at_index idx (i + steps)) (_schedule self).
Proof.
  intros Hs. unfold forward_walk.
  rewrite Hloc, (searchsorted_positionOfOrAfter idx p Hs). cbv zeta.
  destruct ((positionOfOrAfter idx p =? len idx)
            || (positionOfOrAfter idx p + steps <? 0)
            || (positionOfOrAfter idx p + steps >=? len idx)) eqn:Hguard;
    [reflexivity |].
  rewrite getitem_in_range; [reflexivity |].
  apply orb_false_iff in Hguard. destruct Hguard as [Hguard Hhigh].
  apply orb_false_iff in Hguard. destruct Hguard as [_ Hlow].
  lia.
Qed.

Lemma backward_walk_normal (idx : list Z) (steps : Z) (duty : string) :
  backward_walk idx self steps duty
  = let i := positionOfOrBefore idx p in
    if (i =? -1) || (i - steps <? 0) || (i - steps >=? len idx)
    then HandleOutOfBounds (backward_message self steps duty)
    else construct (_tb self) (at_index idx (i - steps)) (_schedule self).
Proof.
  unfold backward_walk.
  rewrite Hloc, (scan_back_positionOfOrBefore idx p). cbv zeta.
  destruct ((positionOfOrBefore idx p =? -1)
            || (positionOfOrBefore idx p - steps <? 0)
            || (positionOfOrBefore idx p - steps >=? len idx)) eqn:Hguard;
    [reflexivity |].
  rewrite getitem_in_range; [reflexivity |].
  apply orb_false_iff in Hguard. destruct Hguard as [Hguard Hhigh].
  apply orb_false_iff in Hguard. destruct Hguard as [_ Hlow].
  lia.
Qed.

End NormalForms.

(** ** The constructor in return position *)

Section Construct.

Lemma construct_resolved (tb : Timeboard) (x : Z) (s : Schedule) (l : pyval) :
  label s (PyInt x) = LabelOk l ->
  construct tb x s
  = Returned {| _label := l; _tb := tb; _loc := PyInt x; _schedule := s |}.
Proof.
  intros Hl. unfold construct, Workshift_init. rewrite Hl. reflexivity.
Qed.

Lemma construct_returned (tb : Timeboard) (x : Z) (s : Schedule)
    (ws : Workshift) :
  construct tb x s = Returned ws ->
  _loc ws = PyInt x /\ _tb ws = tb /\ _schedule ws = s.
Proof.
  unfold construct, Workshift_init.
  destruct (label s (PyInt x)); intros H; try discriminate H.
  injection H as <-. repeat split.
Qed.

Lemma construct_never_delegates (tb : Timeboard) (x : Z) (s : Schedule)
    (m : oob_message) :
  construct tb x s <> HandleOutOfBounds m.
Proof.
  unfold construct. destruct (Workshift_init tb (PyInt x) (Some s));
    discriminate.
Qed.

Lemma construct_self (self : Workshift) (p : Z) :
  constructed self -> _loc self = PyInt p ->
  construct (_tb self) p (_schedule self) = Returned self.
Proof.
  unfold constructed, construct. intros Hc Hloc. rewrite <- Hloc, Hc.
  reflexivity.
Qed.

End Construct.

(** * The claims *)

(** ** Sign symmetry *)

(** C1, as stated, fails on the sample schedule: from the off-duty
    workshift 3, with [k = 0] and duty ['on'], [rollforward] returns the
    workshift at 4 and [rollback] the workshift at 2; both calls succeed
    from a workshift that the constructor accepts. *)
Lemma sign_symmetry_counterexample :
  constructed (Sample.ws 3)
  /\ rollforward (Sample.ws 3) 0 "on" = Returned (Sample.ws 4)
  /\ rollback (Sample.ws 3) (- 0) "on" = Returned (Sample.ws 2)
  /\ _loc (Sample.ws 4) <> _loc (Sample.ws 2).
Proof.
  split; [reflexivity |]. split; [reflexivity |]. split; [reflexivity |].
  discriminate.
Qed.

(** C1 (amended): when the start position [p] is itself an entry of the
    strictly increasing sequence resolved for the duty, and both
    [rollforward(steps=k)] and [rollback(steps=-k)] succeed, they return
    the same workshift. *)
Theorem sign_symmetry_on_member (self : Workshift) (p k : Z) (duty : string)
    (a b : Workshift) :
  _loc self = PyInt p ->
  strictly_increasing (selected_index self duty) = true ->
  In p (selected_index self duty) ->
  rollforward self k duty = Returned a ->
  rollback self (- k) duty = Returned b ->
  a = b.
Proof.
  intros Hloc Hs Hin.
  rewrite rollforward_walks, rollback_walks.
  rewrite (forward_walk_normal self p Hloc _ _ _ Hs).
  rewrite (backward_walk_normal self p Hloc). cbv zeta.
  destruct (anchors_of_member _ p Hs Hin) as (Hsame & _ & _).
  rewrite <- Hsame.
  replace (positionOfOrAfter (selected_index self duty) p - - k)
    with (positionOfOrAfter (selected_index self duty) p + k) by lia.
  destruct (_ || _ || _); [discriminate |].
  destruct (_ || _ || _); [discriminate |].
  intros Ha Hb. rewrite Ha in Hb. injection Hb as Hb. exact Hb.
Qed.

Lemma sign_symmetry_on_member_witness :
  rollforward (Sample.ws 4) 1 "on" = Returned (Sample.ws 6)
  /\ rollback (Sample.ws 4) (- 1) "on" = Returned (Sample.ws 6)
  /\ Sample.ws 6 = Sample.ws 6.
Proof.
  split; [reflexivity |]. split; [reflexivity |].
  apply (sign_symmetry_on_member (Sample.ws 4) 4 1 "on");
    [reflexivity | reflexivity | simpl; tauto | reflexivity | reflexivity].
Defined.

(** ** What [rollforward] returns *)

(** C2: on a strictly increasing resolved sequence [seq], a successful
    [rollforward] from position [p] returns the workshift at
    [seq[i + steps]], where [i] is the smallest index with
    [seq[i] >= p]: the entry equal to [p] when [p] is in [seq], the first
    entry strictly after [p] otherwise. *)
Theorem rollforward_returns_stepped_entry (self : Workshift) (p steps : Z)
    (duty : string) (ws : Workshift) :
  _loc self = PyInt p ->
  strictly_increasing (selected_index self duty) = true ->
  rollforward self steps duty = Returned ws ->
  let seq := selected_index self duty in
  let i := positionOfOrAfter seq p in
  smallest_index_ge seq p i
  /\ i < len seq
  /\ (In p seq -> at_index seq i = p)
  /\ (~ In p seq -> p < at_index seq i)
  /\ 0 <= i + steps < len seq
  /\ _loc ws = PyInt (at_index seq (i + steps)).
Proof.
  intros Hloc Hs Hret seq i.
  rewrite rollforward_walks in Hret.
  rewrite (forward_walk_normal self p Hloc _ _ _ Hs) in Hret.
  cbv zeta in Hret. fold seq in Hret. fold i in Hret.
  destruct ((i =? len seq) || (i + steps <? 0) || (i + steps >=? len seq))
    eqn:Hguard; [discriminate Hret |].
  apply orb_false_iff in Hguard. destruct Hguard as [Hguard Hhigh].
  apply orb_false_iff in Hguard. destruct Hguard as [Hend Hlow].
  pose proof (positionOfOrAfter_smallest seq p) as Hsmall. fold i in Hsmall.
  assert (Hi : i < len seq) by (destruct Hsmall as (? & _ & _); lia).
  split; [exact Hsmall |]. split; [exact Hi |].
  split; [| split; [| split; [lia |]]].
  - intros Hin. destruct (anchors_of_member seq p Hs Hin) as (_ & _ & Hat).
    exact Hat.
  - intros Hnot. destruct Hsmall as (Hr & _ & Hat). specialize (Hat Hi).
    assert (at_index seq i <> p).
    { intros Heq. apply Hnot. rewrite <- Heq. apply at_index_In. lia. }
    lia.
  - apply construct_returned in Hret. destruct Hret as (Hl & _ & _).
    exact Hl.
Qed.

Lemma rollforward_returns_stepped_entry_witness :
  rollforward (Sample.ws 3) 1 "on" = Returned (Sample.ws 6)
  /\ (let seq := selected_index (Sample.ws 3) "on" in
      let i := positionOfOrAfter seq 3 in
      smallest_index_ge seq 3 i
      /\ i < len seq
      /\ (In 3 seq -> at_index seq i = 3)
      /\ (~ In 3 seq -> 3 < at_index seq i)
      /\ 0 <= i + 1 < len seq
      /\ _loc (Sample.ws 6) = PyInt (at_index seq (i + 1))).
Proof.
  split; [reflexivity |].
  apply (rollforward_returns_stepped_entry (Sample.ws 3) 3 1 "on");
    reflexivity.
Defined.

(** ** Anchor inclusivity *)

(** C4: from a workshift whose position [p] is an entry of the strictly
    increasing sequence resolved for the duty, [rollforward(steps=0)] and
    [rollback(steps=0)] both return that very workshift. *)
Theorem anchor_is_inclusive (self : Workshift) (p : Z) (duty : string) :
  constructed self ->
  _loc self = PyInt p ->
  strictly_increasing (selected_index self duty) = true ->
  In p (selected_index self duty) ->
  rollforward self 0 duty = Returned self
  /\ rollback self 0 duty = Returned self.
Proof.
  intros Hc Hloc Hs Hin.
  destruct (anchors_of_member _ p Hs Hin) as (Hsame & Hrange & Hat).
  split.
  - rewrite rollforward_walks, (forward_walk_normal self p Hloc _ _ _ Hs).
    cbv zeta. rewrite Z.add_0_r, Hat.
    destruct (Z.eqb_spec (positionOfOrAfter (selected_index self duty) p)
                         (len (selected_index self duty))); [lia |].
    destruct (Z.ltb_spec (positionOfOrAfter (selected_index self duty) p) 0);
      [lia |].
    destruct (Z.geb_spec (positionOfOrAfter (selected_index self duty) p)
                         (len (selected_index self duty))); [lia |].
    apply construct_self; assumption.
  - rewrite rollback_walks, (backward_walk_normal self p Hloc).
    cbv zeta. rewrite Z.sub_0_r, <- Hsame, Hat.
    destruct (Z.eqb_spec (positionOfOrAfter (selected_index self duty) p) (-1));
      [lia |].
    destruct (Z.ltb_spec (positionOfOrAfter (selected_index self duty) p) 0);
      [lia |].
    destruct (Z.geb_spec (positionOfOrAfter (selected_index self duty) p)
                         (len (selected_index self duty))); [lia |].
    apply construct_self; assumption.
Qed.

Lemma anchor_is_inclusive_witness :
  rollforward (Sample.ws 3) 0 "off" = Returned (Sample.ws 3)
  /\ rollback (Sample.ws 3) 0 "off" = Returned (Sample.ws 3).
Proof.
  apply (anchor_is_inclusive (Sample.ws 3) 3 "off");
    [reflexivity | reflexivity | reflexivity | simpl; tauto].
Defined.

(** ** The backward scan against the forward binary search *)

Section Mirror.

Variable idx : list Z.

Lemma len_mirror : len (mirror idx) = len idx.
Proof.
  unfold mirror, len. rewrite length_rev, length_map. reflexivity.
Qed.

Lemma at_index_mirror (j : Z) :
  0 <= j < len idx ->
  at_index (mirror idx) j = - at_index idx (len idx - 1 - j).
Proof.
  intros Hj. unfold at_index, mirror, len in *.
  rewrite rev_nth by (rewrite length_map; lia).
  rewrite length_map. change 0 with (- 0) at 1. rewrite map_nth.
  f_equal. f_equal. lia.
Qed.

Hypothesis Hincreasing : strictly_increasing idx = true.

Lemma mirror_ascending (i j : Z) :
  0 <= i -> i <= j -> j < len (mirror idx) ->
  at_index (mirror idx) i <= at_index (mirror idx) j.
Proof.
  rewrite len_mirror. intros Hi Hij Hj.
  rewrite !at_index_mirror by lia.
  pose proof (strictly_increasing_at_le idx Hincreasing
                (len idx - 1 - j) (len idx - 1 - i)).
  lia.
Qed.

(** The largest index at or below [p] is, seen from the other end, the
    smallest index at or above [-p]. *)
Lemma largest_is_mirrored_smallest (p b : Z) :
  largest_index_le idx p b ->
  smallest_index_ge (mirror idx) (- p) (len idx - 1 - b).
Proof.
  intros (Hb & Habove & Hat). unfold smallest_index_ge.
  rewrite len_mirror. split; [lia |]. split.
  - intros j Hj. rewrite at_index_mirror by lia.
    specialize (Habove (len idx - 1 - j)). lia.
  - intros Hlt. rewrite at_index_mirror by lia.
    replace (len idx - 1 - (len idx - 1 - b)) with b by lia. lia.
Qed.

Lemma searchsorted_mirror (p : Z) :
  searchsorted (mirror idx) (PyInt (- p))
  = Ok (len idx - 1 - positionOfOrBefore idx p).
Proof.
  unfold searchsorted. f_equal.
  apply (smallest_index_ge_unique (mirror idx) (- p)).
  - apply binsearch_left_smallest.
    + exact mirror_ascending.
    + pose proof (len_nonneg (mirror idx)). lia.
    + lia.
    + intros j Hj. lia.
    + intros j Hj. lia.
  - apply largest_is_mirrored_smallest, positionOfOrBefore_largest.
Qed.

End Mirror.

(** C3: on every strictly increasing [idx] and every position [p], the
    scan of [rollback] (from the last index down while [idx[i] > p]) ends
    on [positionOfOrBefore idx p], the largest index [i] with
    [idx[i] <= p], or [-1]; the binary search of [rollforward] ends on
    [positionOfOrAfter idx p], the smallest index with [idx[i] >= p], or
    [len idx]; and the scan is that binary search run on the mirrored
    sequence. *)
Theorem rollback_scan_is_positionOfOrBefore (idx : list Z) (p : Z) :
  strictly_increasing idx = true ->
  scan_back idx (PyInt p) (len idx - 1) = Ok (positionOfOrBefore idx p)
  /\ largest_index_le idx p (positionOfOrBefore idx p)
  /\ searchsorted idx (PyInt p) = Ok (positionOfOrAfter idx p)
  /\ smallest_index_ge idx p (positionOfOrAfter idx p)
  /\ searchsorted (mirror idx) (PyInt (- p))
     = Ok (len idx - 1 - positionOfOrBefore idx p).
Proof.
  intros Hs.
  split; [apply scan_back_positionOfOrBefore |].
  split; [apply positionOfOrBefore_largest |].
  split; [apply searchsorted_positionOfOrAfter; exact Hs |].
  split; [apply positionOfOrAfter_smallest |].
  apply searchsorted_mirror. exact Hs.
Qed.

Lemma rollback_scan_is_positionOfOrBefore_witness :
  scan_back [0; 2; 4; 6; 8] (PyInt 3) (len [0; 2; 4; 6; 8] - 1)
  = Ok (positionOfOrBefore [0; 2; 4; 6; 8] 3)
  /\ largest_index_le [0; 2; 4; 6; 8] 3 (positionOfOrBefore [0; 2; 4; 6; 8] 3)
  /\ searchsorted [0; 2; 4; 6; 8] (PyInt 3)
     = Ok (positionOfOrAfter [0; 2; 4; 6; 8] 3)
  /\ smallest_index_ge [0; 2; 4; 6; 8] 3 (positionOfOrAfter [0; 2; 4; 6; 8] 3)
  /\ searchsorted (mirror [0; 2; 4; 6; 8]) (PyInt (- 3))
     = Ok (len [0; 2; 4; 6; 8] - 1 - positionOfOrBefore [0; 2; 4; 6; 8] 3).
Proof.
  apply (rollback_scan_is_positionOfOrBefore [0; 2; 4; 6; 8] 3).
  reflexivity.
Defined.

(** ** Out-of-bounds *)

Section Ends.

Variable seq : list Z.
Variable p : Z.

Lemma no_forward_anchor :
  positionOfOrAfter seq p = len seq <-> none_at_or_after seq p.
Proof.
  destruct (positionOfOrAfter_smallest seq p) as (Hr & Hbelow & Hat).
  split.
  - intros Hend x Hin. destruct (In_at_index seq x Hin) as [j [Hj <-]].
    apply Hbelow. lia.
  - intros Hnone.
    destruct (Z.eq_dec (positionOfOrAfter seq p) (len seq)) as [He | Hne];
      [exact He |].
    assert (Hlt : positionOfOrAfter seq p < len seq) by lia.
    specialize (Hat Hlt).
    pose proof (Hnone _ (at_index_In seq (positionOfOrAfter seq p)
                           ltac:(lia))).
    lia.
Qed.

Lemma no_backward_anchor :
  positionOfOrBefore seq p = -1 <-> none_at_or_before seq p.
Proof.
  destruct (positionOfOrBefore_largest seq p) as (Hr & Habove & Hat).
  split.
  - intros Hend x Hin. destruct (In_at_index seq x Hin) as [j [Hj <-]].
    apply Habove. lia.
  - intros Hnone.
    destruct (Z.eq_dec (positionOfOrBefore seq p) (-1)) as [He | Hne];
      [exact He |].
    assert (Hge : 0 <= positionOfOrBefore seq p) by lia.
    specialize (Hat Hge).
    pose proof (Hnone _ (at_index_In seq (positionOfOrBefore seq p)
                           ltac:(lia))).
    lia.
Qed.

End Ends.

(** C5: on a strictly increasing resolved sequence [seq] whose positions
    the schedule resolves, [rollforward] (respectively [rollback]) hands
    over to the out-of-bounds handler exactly when [seq] has no entry at
    or after (at or before) the start position or the stepped index
    leaves [[0, len seq)]; in every other case it returns the workshift
    at the entry [seq[i + steps]] ([seq[i - steps]]) itself.  For
    [rollforward], whose sum [i + steps] is formed in numpy's 64-bit
    index type, the step count is one that fits that type. *)
Theorem out_of_bounds_exactly_off_the_ends (self : Workshift) (p steps : Z)
    (duty : string) :
  _loc self = PyInt p ->
  strictly_increasing (selected_index self duty) = true ->
  resolves (_schedule self) (selected_index self duty) ->
  let seq := selected_index self duty in
  let f := positionOfOrAfter seq p in
  let b := positionOfOrBefore seq p in
  (fits_int64 steps = true ->
   (signals_out_of_bounds (rollforward self steps duty)
    <-> none_at_or_after seq p \/ ~ 0 <= f + steps < len seq)
   /\ (~ signals_out_of_bounds (rollforward self steps duty) ->
       exists ws, rollforward self steps duty = Returned ws
                  /\ _loc ws = PyInt (at_index seq (f + steps))
                  /\ In (at_index seq (f + steps)) seq))
  /\ (signals_out_of_bounds (rollback self steps duty)
      <-> none_at_or_before seq p \/ ~ 0 <= b - steps < len seq)
  /\ (~ signals_out_of_bounds (rollback self steps duty) ->
      exists ws, rollback self steps duty = Returned ws
                 /\ _loc ws = PyInt (at_index seq (b - steps))
                 /\ In (at_index seq (b - steps)) seq).
Proof.
  intros Hloc Hs Hres seq f b.
  rewrite rollforward_walks, rollback_walks.
  rewrite (forward_walk_normal self p Hloc _ _ _ Hs).
  rewrite (backward_walk_normal self p Hloc). cbv zeta.
  fold seq. fold f. fold b.
  pose proof (no_forward_anchor seq p) as Hnf. fold f in Hnf.
  pose proof (no_backward_anchor seq p) as Hnb. fold b in Hnb.
  assert (Hreturn : forall i, 0 <= i < len seq ->
            exists ws, construct (_tb self) (at_index seq i) (_schedule self)
                       = Returned ws
                       /\ _loc ws = PyInt (at_index seq i)
                       /\ In (at_index seq i) seq).
  { intros i Hi. pose proof (at_index_In seq i Hi) as Hin.
    destruct (Hres _ Hin) as [l Hl].
    rewrite (construct_resolved _ _ _ l Hl).
    eexists. split; [reflexivity |]. split; [reflexivity | exact Hin]. }
  assert (Hforward :
            (f =? len seq) || (f + steps <? 0) || (f + steps >=? len seq) = true
            <-> none_at_or_after seq p \/ ~ 0 <= f + steps < len seq).
  { rewrite !orb_true_iff, Z.eqb_eq, Z.ltb_lt, Z.geb_le, Hnf.
    split; [intros [[H | H] | H]; [left; exact H | right; lia | right; lia] |].
    intros [H | H]; [left; left; exact H |].
    destruct (Z.lt_ge_cases (f + steps) 0); [left; right; assumption |].
    right. lia. }
  assert (Hbackward :
            (b =? -1) || (b - steps <? 0) || (b - steps >=? len seq) = true
            <-> none_at_or_before seq p \/ ~ 0 <= b - steps < len seq).
  { rewrite !orb_true_iff, Z.eqb_eq, Z.ltb_lt, Z.geb_le, Hnb.
    split; [intros [[H | H] | H]; [left; exact H | right; lia | right; lia] |].
    intros [H | H]; [left; left; exact H |].
    destruct (Z.lt_ge_cases (b - steps) 0); [left; right; assumption |].
    right. lia. }
  split; [intros _; split | split].
  - rewrite <- Hforward.
    destruct ((f =? len seq) || (f + steps <? 0) || (f + steps >=? len seq)).
    + split; [reflexivity | intros _; eexists; reflexivity].
    + split; [| discriminate].
      intros [msg Hm]. exfalso. exact (construct_never_delegates _ _ _ _ Hm).
  - destruct ((f =? len seq) || (f + steps <? 0) || (f + steps >=? len seq))
      eqn:Hguard.
    + intros Hnot. exfalso. apply Hnot. eexists. reflexivity.
    + intros _. apply Hreturn.
      apply orb_false_iff in Hguard. destruct Hguard as [Hguard Hhigh].
      apply orb_false_iff in Hguard. destruct Hguard as [_ Hlow]. lia.
  - rewrite <- Hbackward.
    destruct ((b =? -1) || (b - steps <? 0) || (b - steps >=? len seq)).
    + split; [reflexivity | intros _; eexists; reflexivity].
    + split; [| discriminate].
      intros [msg Hm]. exfalso. exact (construct_never_delegates _ _ _ _ Hm).
  - destruct ((b =? -1) || (b - steps <? 0) || (b - steps >=? len seq))
      eqn:Hguard.
    + intros Hnot. exfalso. apply Hnot. eexists. reflexivity.
    + intros _. apply Hreturn.
      apply orb_false_iff in Hguard. destruct Hguard as [Hguard Hhigh].
      apply orb_false_iff in Hguard. destruct Hguard as [_ Hlow]. lia.
Qed.

Lemma sample_resolves (seq : list Z) :
  forallb Sample.in_range seq = true -> resolves Sample.schedule seq.
Proof.
  intros Hall x Hin. rewrite forallb_forall in Hall. specialize (Hall x Hin).
  exists (PyInt (x mod 2)). simpl. rewrite Hall. reflexivity.
Qed.

Lemma out_of_bounds_exactly_off_the_ends_witness :
  let seq := selected_index (Sample.ws 9) "off" in
  let f := positionOfOrAfter seq 9 in
  let b := positionOfOrBefore seq 9 in
  ((signals_out_of_bounds (rollforward (Sample.ws 9) 1 "off")
    <-> none_at_or_after seq 9 \/ ~ 0 <= f + 1 < len seq)
   /\ (~ signals_out_of_bounds (rollforward (Sample.ws 9) 1 "off") ->
       exists ws, rollforward (Sample.ws 9) 1 "off" = Returned ws
                  /\ _loc ws = PyInt (at_index seq (f + 1))
                  /\ In (at_index seq (f + 1)) seq))
  /\ (signals_out_of_bounds (rollback (Sample.ws 9) 1 "off")
      <-> none_at_or_before seq 9 \/ ~ 0 <= b - 1 < len seq)
  /\ (~ signals_out_of_bounds (rollback (Sample.ws 9) 1 "off") ->
      exists ws, rollback (Sample.ws 9) 1 "off" = Returned ws
                 /\ _loc ws = PyInt (at_index seq (b - 1))
                 /\ In (at_index seq (b - 1)) seq).
Proof.
  intros seq f b.
  destruct (out_of_bounds_exactly_off_the_ends (Sample.ws 9) 9 1 "off"
              eq_refl eq_refl
              (sample_resolves (selected_index (Sample.ws 9) "off") eq_refl))
    as [Hforward Hbackward].
  split; [exact (Hforward eq_refl) | exact Hbackward].
Defined.

(** ** Which sequence is walked *)

Section Duty.

Variable self : Workshift.

Lemma selected_index_tag (m : DutyMode) :
  Workshift_is_off_duty self = negb (Workshift_is_on_duty self) ->
  selected_index self (tag m)
  = indexFor (_schedule self) m (Workshift_is_on_duty self).
Proof.
  intros Hoff. unfold selected_index. rewrite Hoff.
  destruct m; simpl; destruct (Workshift_is_on_duty self); reflexivity.
Qed.

Lemma selected_index_unrecognized (duty : string) :
  duty <> "off" -> duty <> "same" -> duty <> "alt" -> duty <> "any" ->
  selected_index self duty = on_duty_index (_schedule self).
Proof.
  intros Hoff Hsame Halt Hany. unfold selected_index, duty_is.
  apply String.eqb_neq in Hoff, Hsame, Halt, Hany.
  rewrite Hoff, Hsame, Halt, Hany. reflexivity.
Qed.

Lemma selected_index_on :
  selected_index self "on" = on_duty_index (_schedule self).
Proof. reflexivity. Qed.

End Duty.

(** C6: for a start position whose off-duty flag is the negation of its
    on-duty flag, [rollforward] and [rollback] walk the sequence that
    [indexFor] names: the on-duty index for ['on'], the off-duty index
    for ['off'], for ['same'] the on-duty index if the start is on duty
    and the off-duty index otherwise, for ['alt'] the other way round,
    and the full index for ['any']. *)
Theorem duty_resolves_the_walked_sequence (self : Workshift) (m : DutyMode)
    (steps : Z) :
  Workshift_is_off_duty self = negb (Workshift_is_on_duty self) ->
  let seq := indexFor (_schedule self) m (Workshift_is_on_duty self) in
  selected_index self (tag m) = seq
  /\ rollforward self steps (tag m) = forward_walk seq self steps (tag m)
  /\ rollback self steps (tag m) = backward_walk seq self steps (tag m).
Proof.
  intros Hoff seq. pose proof (selected_index_tag self m Hoff) as Hsel.
  fold seq in Hsel.
  rewrite rollforward_walks, rollback_walks, Hsel. repeat split.
Qed.

Lemma duty_resolves_the_walked_sequence_witness :
  selected_index (Sample.ws 3) "alt" = [0; 2; 4; 6; 8]
  /\ rollforward (Sample.ws 3) 1 "alt"
     = forward_walk [0; 2; 4; 6; 8] (Sample.ws 3) 1 "alt"
  /\ rollback (Sample.ws 3) 1 "alt"
     = backward_walk [0; 2; 4; 6; 8] (Sample.ws 3) 1 "alt".
Proof.
  apply (duty_resolves_the_walked_sequence (Sample.ws 3) Alt 1).
  reflexivity.
Defined.

(** C7: with a duty that is none of ['off'], ['same'], ['alt'], ['any'],
    both methods walk the on-duty index and end as they do with ['on']
    (the diagnostic of an out-of-bounds call names the duty given); no
    error is raised for the unrecognized duty. *)
Theorem unrecognized_duty_walks_on_duty (self : Workshift) (steps : Z)
    (duty : string) :
  duty <> "off" -> duty <> "same" -> duty <> "alt" -> duty <> "any" ->
  selected_index self duty = on_duty_index (_schedule self)
  /\ rollforward self steps duty = with_duty duty (rollforward self steps "on")
  /\ rollback self steps duty = with_duty duty (rollback self steps "on").
Proof.
  intros Hoff Hsame Halt Hany.
  pose proof (selected_index_unrecognized self duty Hoff Hsame Halt Hany)
    as Hsel.
  split; [exact Hsel |].
  rewrite !rollforward_walks, !rollback_walks, Hsel, selected_index_on.
  unfold forward_walk, backward_walk. split.
  - destruct (searchsorted _ _) as [i | e]; [| reflexivity].
    destruct (_ || _ || _); [reflexivity |].
    destruct (getitem _ _) as [x | e]; [| reflexivity].
    unfold construct. destruct (Workshift_init _ _ _); reflexivity.
  - destruct (scan_back _ _ _) as [i | e]; [| reflexivity].
    destruct (_ || _ || _); [reflexivity |].
    destruct (getitem _ _) as [x | e]; [| reflexivity].
    unfold construct. destruct (Workshift_init _ _ _); reflexivity.
Qed.

Lemma unrecognized_duty_walks_on_duty_witness :
  selected_index (Sample.ws 3) "weekend" = [0; 2; 4; 6; 8]
  /\ rollforward (Sample.ws 3) 5 "weekend"
     = with_duty "weekend" (rollforward (Sample.ws 3) 5 "on")
  /\ rollback (Sample.ws 3) 5 "weekend"
     = with_duty "weekend" (rollback (Sample.ws 3) 5 "on").
Proof.
  apply (unrecognized_duty_walks_on_duty (Sample.ws 3) 5 "weekend");
    discriminate.
Defined.

(** ** The operators *)

(** C8: for every workshift and every integer [n], [ws + n] is
    [ws.rollforward(steps=n, duty='on')] and [ws - n] is
    [ws.rollback(steps=n, duty='on')]. *)
Theorem operators_use_duty_on (self : Workshift) (n : Z) :
  Workshift_add self (OpVal (PyInt n)) = Computed (rollforward self n "on")
  /\ Workshift_sub self (OpVal (PyInt n)) = Computed (rollback self n "on").
Proof. split; reflexivity. Qed.

(** ** Construction *)

(** C9: the constructor raises [TypeError] exactly when the label lookup
    rejects the location as not integer-like, raises [OutOfBoundsError]
    exactly when the lookup rejects it as out of range, and otherwise
    builds the workshift at the location as given; a negative location
    that the schedule resolves is accepted. *)
Theorem construction_follows_label_lookup (tb : Timeboard) (location : pyval)
    (schedule : option Schedule) :
  let s := match schedule with
           | None => default_schedule tb
           | Some s => s
           end in
  (Workshift_init tb location schedule = Raise TypeError
   <-> label s location = LabelTypeError)
  /\ (Workshift_init tb location schedule = Raise OutOfBoundsError
      <-> label s location = LabelIndexError)
  /\ (forall l, label s location = LabelOk l
                <-> Workshift_init tb location schedule
                    = Ok {| _label := l; _tb := tb; _loc := location;
                            _schedule := s |})
  /\ (forall z l, location = PyInt z -> z < 0 ->
                  label s location = LabelOk l ->
                  exists ws, Workshift_init tb location schedule = Ok ws
                             /\ _loc ws = PyInt z).
Proof.
  intros s. unfold Workshift_init. fold s.
  destruct (label s location) as [l | |].
  - split; [split; discriminate |]. split; [split; discriminate |].
    split.
    + intros l'. split; intros H; injection H as ->; reflexivity.
    + intros z l' -> _ _. eexists. split; reflexivity.
  - split; [split; reflexivity |]. split; [split; discriminate |].
    split; [intros l; split; discriminate |].
    intros z l _ _ H. discriminate H.
  - split; [split; discriminate |]. split; [split; reflexivity |].
    split; [intros l; split; discriminate |].
    intros z l _ _ H. discriminate H.
Qed.

Lemma construction_follows_label_lookup_witness :
  exists ws, Workshift_init Sample.tb (PyInt (-1)) None = Ok ws
             /\ _loc ws = PyInt (-1).
Proof.
  apply (proj2 (proj2 (proj2
           (construction_follows_label_lookup Sample.tb (PyInt (-1)) None)))
           (-1) (PyInt 1));
    [reflexivity | lia | reflexivity].
Defined.

(** ** The array access *)

(** C10: whenever [rollforward] (respectively [rollback]) returns a
    workshift, the index [i + steps] ([i - steps]) it read [idx] at lies
    in [[0, len idx)]: the read is the plain one, neither an
    [IndexError] nor a read counted from the end. *)
Theorem stepped_index_in_bounds (self : Workshift) (steps : Z)
    (duty : string) (ws : Workshift) :
  let idx := selected_index self duty in
  (rollforward self steps duty = Returned ws ->
   exists i, searchsorted idx (_loc self) = Ok i
             /\ 0 <= i + steps < len idx
             /\ getitem idx (i + steps) = Ok (at_index idx (i + steps)))
  /\ (rollback self steps duty = Returned ws ->
      exists i, scan_back idx (_loc self) (len idx - 1) = Ok i
                /\ 0 <= i - steps < len idx
                /\ getitem idx (i - steps) = Ok (at_index idx (i - steps))).
Proof.
  intros idx. rewrite rollforward_walks, rollback_walks. fold idx.
  unfold forward_walk, backward_walk. split.
  - destruct (searchsorted idx (_loc self)) as [i | e]; [| discriminate].
    destruct ((i =? len idx) || (i + steps <? 0) || (i + steps >=? len idx))
      eqn:Hguard; [discriminate |].
    intros _. exists i.
    apply orb_false_iff in Hguard. destruct Hguard as [Hguard Hhigh].
    apply orb_false_iff in Hguard. destruct Hguard as [_ Hlow].
    assert (Hin : 0 <= i + steps < len idx) by lia.
    split; [reflexivity |]. split; [exact Hin |].
    apply getitem_in_range. exact Hin.
  - destruct (scan_back idx (_loc self) (len idx - 1)) as [i | e];
      [| discriminate].
    destruct ((i =? -1) || (i - steps <? 0) || (i - steps >=? len idx))
      eqn:Hguard; [discriminate |].
    intros _. exists i.
    apply orb_false_iff in Hguard. destruct Hguard as [Hguard Hhigh].
    apply orb_false_iff in Hguard. destruct Hguard as [_ Hlow].
    assert (Hin : 0 <= i - steps < len idx) by lia.
    split; [reflexivity |]. split; [exact Hin |].
    apply getitem_in_range. exact Hin.
Qed.

Lemma stepped_index_in_bounds_witness :
  (exists i, searchsorted [0; 2; 4; 6; 8] (PyInt 3) = Ok i
             /\ 0 <= i + -1 < 5
             /\ getitem [0; 2; 4; 6; 8] (i + -1)
                = Ok (at_index [0; 2; 4; 6; 8] (i + -1)))
  /\ rollforward (Sample.ws 3) (-1) "on" = Returned (Sample.ws 2).
Proof.
  split; [| reflexivity].
  apply (proj1 (stepped_index_in_bounds (Sample.ws 3) (-1) "on" (Sample.ws 2))).
  reflexivity.
Defined.

(** * Further properties of navigation *)

(** ** What a returned workshift tells about the call *)

Section Walks.

Variable self : Workshift.

Lemma forward_walk_returned (idx : list Z) (steps : Z) (duty : string)
    (ws : Workshift) :
  forward_walk idx self steps duty = Returned ws ->
  exists i, searchsorted idx (_loc self) = Ok i
            /\ i <> len idx
            /\ 0 <= i + steps < len idx
            /\ construct (_tb self) (at_index idx (i + steps)) (_schedule self)
               = Returned ws.
Proof.
  unfold forward_walk.
  destruct (searchsorted idx (_loc self)) as [i | e]; [| discriminate].
  destruct ((i =? len idx) || (i + steps <? 0) || (i + steps >=? len idx))
    eqn:Hguard; [discriminate |].
  apply orb_false_iff in Hguard. destruct Hguard as [Hguard Hhigh].
  apply orb_false_iff in Hguard. destruct Hguard as [Hend Hlow].
  assert (Hin : 0 <= i + steps < len idx) by lia.
  rewrite (getitem_in_range idx _ Hin). intros Hret.
  exists i. repeat split; try lia. exact Hret.
Qed.

Lemma backward_walk_returned (idx : list Z) (steps : Z) (duty : string)
    (ws : Workshift) :
  backward_walk idx self steps duty = Returned ws ->
  exists i, scan_back idx (_loc self) (len idx - 1) = Ok i
            /\ i <> -1
            /\ 0 <= i - steps < len idx
            /\ construct (_tb self) (at_index idx (i - steps)) (_schedule self)
               = Returned ws.
Proof.
  unfold backward_walk.
  destruct (scan_back idx (_loc self) (len idx - 1)) as [i | e];
    [| discriminate].
  destruct ((i =? -1) || (i - steps <? 0) || (i - steps >=? len idx))
    eqn:Hguard; [discriminate |].
  apply orb_false_iff in Hguard. destruct Hguard as [Hguard Hhigh].
  apply orb_false_iff in Hguard. destruct Hguard as [Hend Hlow].
  assert (Hin : 0 <= i - steps < len idx) by lia.
  rewrite (getitem_in_range idx _ Hin). intros Hret.
  exists i. repeat split; try lia. exact Hret.
Qed.

Variable p : Z.
Hypothesis Hloc : _loc self = PyInt p.

(** From an integer position, on a strictly increasing array. *)
Lemma forward_returned_at (idx : list Z) (steps : Z) (duty : string)
    (ws : Workshift) :
  strictly_increasing idx = true ->
  forward_walk idx self steps duty = Returned ws ->
  0 <= positionOfOrAfter idx p < len idx
  /\ 0 <= positionOfOrAfter idx p + steps < len idx
  /\ construct (_tb self) (at_index idx (positionOfOrAfter idx p + steps))
       (_schedule self) = Returned ws.
Proof.
  intros Hs Hret.
  destruct (forward_walk_returned idx steps duty ws Hret)
    as (i & Hi & Hend & Hin & Hc).
  rewrite Hloc, (searchsorted_positionOfOrAfter idx p Hs) in Hi.
  injection Hi as <-.
  destruct (positionOfOrAfter_smallest idx p) as (Hr & _ & _).
  repeat split; try lia. exact Hc.
Qed.

Lemma backward_returned_at (idx : list Z) (steps : Z) (duty : string)
    (ws : Workshift) :
  backward_walk idx self steps duty = Returned ws ->
  0 <= positionOfOrBefore idx p < len idx
  /\ 0 <= positionOfOrBefore idx p - steps < len idx
  /\ construct (_tb self) (at_index idx (positionOfOrBefore idx p - steps))
       (_schedule self) = Returned ws.
Proof.
  intros Hret.
  destruct (backward_walk_returned idx steps duty ws Hret)
    as (i & Hi & Hend & Hin & Hc).
  rewrite Hloc, (scan_back_positionOfOrBefore idx p) in Hi.
  injection Hi as <-.
  destruct (positionOfOrBefore_largest idx p) as (Hr & _ & _).
  repeat split; try lia. exact Hc.
Qed.

Lemma forward_in_range (idx : list Z) (steps : Z) (duty : string) :
  strictly_increasing idx = true ->
  positionOfOrAfter idx p < len idx ->
  0 <= positionOfOrAfter idx p + steps < len idx ->
  forward_walk idx self steps duty
  = construct (_tb self) (at_index idx (positionOfOrAfter idx p + steps))
      (_schedule self).
Proof.
  intros Hs Hend Hin. rewrite (forward_walk_normal self p Hloc _ _ _ Hs).
  cbv zeta.
  destruct (Z.eqb_spec (positionOfOrAfter idx p) (len idx)); [lia |].
  destruct (Z.ltb_spec (positionOfOrAfter idx p + steps) 0); [lia |].
  destruct (Z.geb_spec (positionOfOrAfter idx p + steps) (len idx)); [lia |].
  reflexivity.
Qed.

Lemma backward_in_range (idx : list Z) (steps : Z) (duty : string) :
  0 <= positionOfOrBefore idx p ->
  0 <= positionOfOrBefore idx p - steps < len idx ->
  backward_walk idx self steps duty
  = construct (_tb self) (at_index idx (positionOfOrBefore idx p - steps))
      (_schedule self).
Proof.
  intros Hend Hin. rewrite (backward_walk_normal self p Hloc).
  cbv zeta.
  destruct (Z.eqb_spec (positionOfOrBefore idx p) (-1)); [lia |].
  destruct (Z.ltb_spec (positionOfOrBefore idx p - steps) 0); [lia |].
  destruct (Z.geb_spec (positionOfOrBefore idx p - steps) (len idx)); [lia |].
  reflexivity.
Qed.

Lemma forward_out_of_range (idx : list Z) (steps : Z) (duty : string) :
  strictly_increasing idx = true ->
  positionOfOrAfter idx p = len idx
  \/ ~ 0 <= positionOfOrAfter idx p + steps < len idx ->
  forward_walk idx self steps duty
  = HandleOutOfBounds (forward_message self steps duty).
Proof.
  intros Hs Hout. rewrite (forward_walk_normal self p Hloc _ _ _ Hs).
  cbv zeta.
  destruct (Z.eqb_spec (positionOfOrAfter idx p) (len idx)); [reflexivity |].
  destruct (Z.ltb_spec (positionOfOrAfter idx p + steps) 0); [reflexivity |].
  destruct (Z.geb_spec (positionOfOrAfter idx p + steps) (len idx));
    [reflexivity | lia].
Qed.

Lemma backward_out_of_range (idx : list Z) (steps : Z) (duty : string) :
  positionOfOrBefore idx p = -1
  \/ ~ 0 <= positionOfOrBefore idx p - steps < len idx ->
  backward_walk idx self steps duty
  = HandleOutOfBounds (backward_message self steps duty).
Proof.
  intros Hout. rewrite (backward_walk_normal self p Hloc).
  cbv zeta.
  destruct (Z.eqb_spec (positionOfOrBefore idx p) (-1)); [reflexivity |].
  destruct (Z.ltb_spec (positionOfOrBefore idx p - steps) 0); [reflexivity |].
  destruct (Z.geb_spec (positionOfOrBefore idx p - steps) (len idx));
    [reflexivity | lia].
Qed.

End Walks.

(** ** The anchor of an entry is the entry *)

Section EntryAnchors.

Variable seq : list Z.
Hypothesis Hincreasing : strictly_increasing seq = true.

Lemma positionOfOrAfter_at (j : Z) :
  0 <= j < len seq -> positionOfOrAfter seq (at_index seq j) = j.
Proof.
  intros Hj. apply (smallest_index_ge_unique seq (at_index seq j)).
  - apply positionOfOrAfter_smallest.
  - repeat split; try lia.
    intros i Hi. apply (strictly_increasing_at seq Hincreasing); lia.
Qed.

Lemma positionOfOrBefore_at (j : Z) :
  0 <= j < len seq -> positionOfOrBefore seq (at_index seq j) = j.
Proof.
  intros Hj. apply (largest_index_le_unique seq (at_index seq j)).
  - apply positionOfOrBefore_largest.
  - repeat split; try lia.
    intros i Hi. apply (strictly_increasing_at seq Hincreasing); lia.
Qed.

End EntryAnchors.

Lemma selected_index_fixed (a b : Workshift) (duty : string) :
  fixed_duty duty = true -> _schedule a = _schedule b ->
  selected_index a duty = selected_index b duty.
Proof.
  unfold fixed_duty, selected_index. intros Hfixed Hsched.
  apply andb_true_iff in Hfixed. destruct Hfixed as [Hsame Halt].
  apply negb_true_iff in Hsame, Halt. rewrite Hsame, Halt, Hsched.
  reflexivity.
Qed.

(** ** What [rollback] returns *)

(** X1: on any resolved sequence [seq] (sorted or not), a successful
    [rollback] from position [p] returns the workshift at
    [seq[i - steps]], where [i] is the largest index with [seq[i] <= p]. *)
Theorem rollback_returns_stepped_entry (self : Workshift) (p steps : Z)
    (duty : string) (ws : Workshift) :
  _loc self = PyInt p ->
  rollback self steps duty = Returned ws ->
  let seq := selected_index self duty in
  let i := positionOfOrBefore seq p in
  largest_index_le seq p i
  /\ 0 <= i
  /\ at_index seq i <= p
  /\ 0 <= i - steps < len seq
  /\ _loc ws = PyInt (at_index seq (i - steps)).
Proof.
  intros Hloc Hret seq i. rewrite rollback_walks in Hret. fold seq in Hret.
  destruct (backward_returned_at self p Hloc seq steps duty ws Hret)
    as (Hi & Hin & Hc).
  fold i in Hi, Hin, Hc.
  pose proof (positionOfOrBefore_largest seq p) as Hlargest.
  fold i in Hlargest.
  split; [exact Hlargest |]. split; [lia |].
  split; [destruct Hlargest as (_ & _ & Hat); apply Hat; lia |].
  split; [exact Hin |].
  apply construct_returned in Hc. destruct Hc as (Hl & _ & _). exact Hl.
Qed.

Lemma rollback_returns_stepped_entry_witness :
  let seq := selected_index (Sample.ws 3) "on" in
  let i := positionOfOrBefore seq 3 in
  largest_index_le seq 3 i
  /\ 0 <= i
  /\ at_index seq i <= 3
  /\ 0 <= i - 1 < len seq
  /\ _loc (Sample.ws 0) = PyInt (at_index seq (i - 1)).
Proof.
  apply (rollback_returns_stepped_entry (Sample.ws 3) 3 1 "on" (Sample.ws 0));
    reflexivity.
Defined.

(** ** Order of the results *)

(** X2: on a strictly increasing resolved sequence, more steps forward
    lead strictly later: if [rollforward] succeeds with [k1] and with
    [k2 > k1] steps, the first result precedes the second. *)
Theorem rollforward_increases_with_steps (self : Workshift) (p k1 k2 : Z)
    (duty : string) (a b : Workshift) :
  _loc self = PyInt p ->
  strictly_increasing (selected_index self duty) = true ->
  k1 < k2 ->
  rollforward self k1 duty = Returned a ->
  rollforward self k2 duty = Returned b ->
  precedes a b.
Proof.
  intros Hloc Hs Hk Ha Hb. rewrite rollforward_walks in Ha, Hb.
  destruct (forward_returned_at self p Hloc _ _ _ _ Hs Ha) as (Hf & Hina & Hca).
  destruct (forward_returned_at self p Hloc _ _ _ _ Hs Hb) as (_ & Hinb & Hcb).
  apply construct_returned in Hca, Hcb.
  destruct Hca as (Hla & _ & _). destruct Hcb as (Hlb & _ & _).
  unfold precedes. rewrite Hla, Hlb.
  apply (strictly_increasing_at _ Hs); lia.
Qed.

Lemma rollforward_increases_with_steps_witness :
  precedes (Sample.ws 4) (Sample.ws 8).
Proof.
  apply (rollforward_increases_with_steps (Sample.ws 3) 3 0 2 "on");
    [reflexivity | reflexivity | lia | reflexivity | reflexivity].
Defined.

(** X3: on a strictly increasing resolved sequence, more steps back lead
    strictly earlier: if [rollback] succeeds with [k1] and with [k2 > k1]
    steps, the second result precedes the first. *)
Theorem rollback_decreases_with_steps (self : Workshift) (p k1 k2 : Z)
    (duty : string) (a b : Workshift) :
  _loc self = PyInt p ->
  strictly_increasing (selected_index self duty) = true ->
  k1 < k2 ->
  rollback self k1 duty = Returned a ->
  rollback self k2 duty = Returned b ->
  precedes b a.
Proof.
  intros Hloc Hs Hk Ha Hb. rewrite rollback_walks in Ha, Hb.
  destruct (backward_returned_at self p Hloc _ _ _ _ Ha) as (Hf & Hina & Hca).
  destruct (backward_returned_at self p Hloc _ _ _ _ Hb) as (_ & Hinb & Hcb).
  apply construct_returned in Hca, Hcb.
  destruct Hca as (Hla & _ & _). destruct Hcb as (Hlb & _ & _).
  unfold precedes. rewrite Hla, Hlb.
  apply (strictly_increasing_at _ Hs); lia.
Qed.

Lemma rollback_decreases_with_steps_witness :
  precedes (Sample.ws 1) (Sample.ws 5).
Proof.
  apply (rollback_decreases_with_steps (Sample.ws 6) 6 0 2 "off");
    [reflexivity | reflexivity | lia | reflexivity | reflexivity].
Defined.

(** X4: one more step forward skips no entry: on a strictly increasing
    resolved sequence, no entry lies strictly between the results of
    [rollforward] with [k] and with [k + 1] steps. *)
Theorem rollforward_step_skips_nothing (self : Workshift) (p k : Z)
    (duty : string) (a b : Workshift) (x y : Z) :
  _loc self = PyInt p ->
  strictly_increasing (selected_index self duty) = true ->
  rollforward self k duty = Returned a ->
  rollforward self (k + 1) duty = Returned b ->
  _loc a = PyInt x -> _loc b = PyInt y ->
  x < y /\ forall z, In z (selected_index self duty) -> ~ (x < z < y).
Proof.
  intros Hloc Hs Ha Hb Hx Hy. rewrite rollforward_walks in Ha, Hb.
  destruct (forward_returned_at self p Hloc _ _ _ _ Hs Ha) as (Hf & Hina & Hca).
  destruct (forward_returned_at self p Hloc _ _ _ _ Hs Hb) as (_ & Hinb & Hcb).
  apply construct_returned in Hca, Hcb.
  destruct Hca as (Hla & _ & _). destruct Hcb as (Hlb & _ & _).
  rewrite Hx in Hla. rewrite Hy in Hlb.
  injection Hla as ->. injection Hlb as ->.
  set (seq := selected_index self duty) in *.
  set (j := positionOfOrAfter seq p + k) in *.
  replace (positionOfOrAfter seq p + (k + 1)) with (j + 1) in * by (unfold j; lia).
  split; [apply (strictly_increasing_at seq Hs); lia |].
  intros z Hz [Hlow Hhigh].
  destruct (In_at_index seq z Hz) as [m [Hm <-]].
  destruct (Z.le_gt_cases m j) as [Hle | Hgt].
  - pose proof (strictly_increasing_at_le seq Hs m j). lia.
  - pose proof (strictly_increasing_at_le seq Hs (j + 1) m). lia.
Qed.

Lemma rollforward_step_skips_nothing_witness :
  4 < 6 /\ forall z, In z (selected_index (Sample.ws 3) "on") -> ~ (4 < z < 6).
Proof.
  apply (rollforward_step_skips_nothing (Sample.ws 3) 3 0 "on"
           (Sample.ws 4) (Sample.ws 6));
    reflexivity.
Defined.

(** X5: the zero-step workshift is the nearest one: on a strictly
    increasing resolved sequence, [rollforward(steps=0)] returns the
    least entry at or after the start and [rollback(steps=0)] the
    greatest entry at or before it. *)
Theorem zero_step_is_nearest (self : Workshift) (p : Z) (duty : string) :
  _loc self = PyInt p ->
  strictly_increasing (selected_index self duty) = true ->
  (forall ws q, rollforward self 0 duty = Returned ws -> _loc ws = PyInt q ->
     In q (selected_index self duty) /\ p <= q
     /\ forall x, In x (selected_index self duty) -> p <= x -> q <= x)
  /\ (forall ws q, rollback self 0 duty = Returned ws -> _loc ws = PyInt q ->
        In q (selected_index self duty) /\ q <= p
        /\ forall x, In x (selected_index self duty) -> x <= p -> x <= q).
Proof.
  intros Hloc Hs. set (seq := selected_index self duty) in *. split.
  - intros ws q Hret Hq. rewrite rollforward_walks in Hret. fold seq in Hret.
    destruct (forward_returned_at self p Hloc _ _ _ _ Hs Hret)
      as (Hf & _ & Hc).
    apply construct_returned in Hc. destruct Hc as (Hl & _ & _).
    rewrite Hq, Z.add_0_r in Hl. injection Hl as ->.
    destruct (positionOfOrAfter_smallest seq p) as (_ & Hbelow & Hat).
    split; [apply at_index_In; lia |]. split; [apply Hat; lia |].
    intros x Hx Hpx. destruct (In_at_index seq x Hx) as [m [Hm <-]].
    destruct (Z.lt_ge_cases m (positionOfOrAfter seq p)) as [Hlt | Hge].
    + specialize (Hbelow m). lia.
    + apply (strictly_increasing_at_le seq Hs); lia.
  - intros ws q Hret Hq. rewrite rollback_walks in Hret. fold seq in Hret.
    destruct (backward_returned_at self p Hloc _ _ _ _ Hret)
      as (Hb & _ & Hc).
    apply construct_returned in Hc. destruct Hc as (Hl & _ & _).
    rewrite Hq, Z.sub_0_r in Hl. injection Hl as ->.
    destruct (positionOfOrBefore_largest seq p) as (_ & Habove & Hat).
    split; [apply at_index_In; lia |]. split; [apply Hat; lia |].
    intros x Hx Hxp. destruct (In_at_index seq x Hx) as [m [Hm <-]].
    destruct (Z.lt_ge_cases (positionOfOrBefore seq p) m) as [Hlt | Hge].
    + specialize (Habove m). lia.
    + apply (strictly_increasing_at_le seq Hs); lia.
Qed.

Lemma zero_step_is_nearest_witness :
  In 4 (selected_index (Sample.ws 3) "on") /\ 3 <= 4
  /\ forall x, In x (selected_index (Sample.ws 3) "on") -> 3 <= x -> 4 <= x.
Proof.
  apply (proj1 (zero_step_is_nearest (Sample.ws 3) 3 "on" eq_refl eq_refl)
           (Sample.ws 4) 4);
    reflexivity.
Defined.

(** X6: the sign of [steps] decides the side: on a strictly increasing
    resolved sequence a successful [rollforward] ends at or after the
    start when [steps >= 0] and strictly before it when [steps < 0]; a
    successful [rollback] ends at or before the start when [steps >= 0]
    and strictly after it when [steps < 0]. *)
Theorem sign_of_steps_decides_the_side (self : Workshift) (p steps : Z)
    (duty : string) (ws : Workshift) (q : Z) :
  _loc self = PyInt p ->
  strictly_increasing (selected_index self duty) = true ->
  _loc ws = PyInt q ->
  (rollforward self steps duty = Returned ws ->
   (0 <= steps -> p <= q) /\ (steps < 0 -> q < p))
  /\ (rollback self steps duty = Returned ws ->
      (0 <= steps -> q <= p) /\ (steps < 0 -> p < q)).
Proof.
  intros Hloc Hs Hq. set (seq := selected_index self duty) in *. split.
  - intros Hret. rewrite rollforward_walks in Hret. fold seq in Hret.
    destruct (forward_returned_at self p Hloc _ _ _ _ Hs Hret)
      as (Hf & Hin & Hc).
    apply construct_returned in Hc. destruct Hc as (Hl & _ & _).
    rewrite Hq in Hl. injection Hl as ->.
    destruct (positionOfOrAfter_smallest seq p) as (_ & Hbelow & Hat).
    split.
    + intros Hpos.
      pose proof (strictly_increasing_at_le seq Hs (positionOfOrAfter seq p)
                    (positionOfOrAfter seq p + steps)).
      lia.
    + intros Hneg. apply Hbelow. lia.
  - intros Hret. rewrite rollback_walks in Hret. fold seq in Hret.
    destruct (backward_returned_at self p Hloc _ _ _ _ Hret)
      as (Hb & Hin & Hc).
    apply construct_returned in Hc. destruct Hc as (Hl & _ & _).
    rewrite Hq in Hl. injection Hl as ->.
    destruct (positionOfOrBefore_largest seq p) as (_ & Habove & Hat).
    split.
    + intros Hpos.
      pose proof (strictly_increasing_at_le seq Hs
                    (positionOfOrBefore seq p - steps)
                    (positionOfOrBefore seq p)).
      lia.
    + intros Hneg. apply Habove. lia.
Qed.

Lemma sign_of_steps_decides_the_side_witness :
  (0 <= -1 -> 3 <= 2) /\ (-1 < 0 -> 2 < 3).
Proof.
  apply (proj1 (sign_of_steps_decides_the_side (Sample.ws 3) 3 (-1) "on"
                  (Sample.ws 2) 2 eq_refl eq_refl eq_refl)).
  reflexivity.
Defined.

(** ** Calls in sequence *)

Section Sequel.

Variable self : Workshift.
Variable p : Z.
Variable duty : string.
Hypothesis Hloc : _loc self = PyInt p.
Hypothesis Hincreasing : strictly_increasing (selected_index self duty) = true.
Hypothesis Hfixed : fixed_duty duty = true.

(** Where a workshift returned by [rollforward] stands. *)
Lemma forward_result_stands (a : Z) (ws : Workshift) :
  rollforward self a duty = Returned ws ->
  let seq := selected_index self duty in
  let j := positionOfOrAfter seq p + a in
  0 <= positionOfOrAfter seq p < len seq
  /\ 0 <= j < len seq
  /\ _loc ws = PyInt (at_index seq j)
  /\ _tb ws = _tb self /\ _schedule ws = _schedule self
  /\ selected_index ws duty = seq
  /\ positionOfOrAfter seq (at_index seq j) = j
  /\ positionOfOrBefore seq (at_index seq j) = j.
Proof.
  intros Hret. cbv zeta. rewrite rollforward_walks in Hret.
  destruct (forward_returned_at self p Hloc _ _ _ _ Hincreasing Hret)
    as (Hf & Hin & Hc).
  apply construct_returned in Hc. destruct Hc as (Hl & Htb & Hsch).
  split; [lia |]. split; [lia |]. split; [exact Hl |].
  split; [exact Htb |]. split; [exact Hsch |].
  split; [apply selected_index_fixed; assumption |].
  split; [apply positionOfOrAfter_at | apply positionOfOrBefore_at];
    assumption.
Qed.

(** Where a workshift returned by [rollback] stands. *)
Lemma backward_result_stands (a : Z) (ws : Workshift) :
  rollback self a duty = Returned ws ->
  let seq := selected_index self duty in
  let j := positionOfOrBefore seq p - a in
  0 <= positionOfOrBefore seq p < len seq
  /\ 0 <= j < len seq
  /\ _loc ws = PyInt (at_index seq j)
  /\ _tb ws = _tb self /\ _schedule ws = _schedule self
  /\ selected_index ws duty = seq
  /\ positionOfOrAfter seq (at_index seq j) = j
  /\ positionOfOrBefore seq (at_index seq j) = j.
Proof.
  intros Hret. cbv zeta. rewrite rollback_walks in Hret.
  destruct (backward_returned_at self p Hloc _ _ _ _ Hret)
    as (Hf & Hin & Hc).
  apply construct_returned in Hc. destruct Hc as (Hl & Htb & Hsch).
  split; [lia |]. split; [lia |]. split; [exact Hl |].
  split; [exact Htb |]. split; [exact Hsch |].
  split; [apply selected_index_fixed; assumption |].
  split; [apply positionOfOrAfter_at | apply positionOfOrBefore_at];
    assumption.
Qed.

Lemma forward_then_backward (k : Z) (ws : Workshift) :
  rollforward self k duty = Returned ws ->
  rollback ws k duty = rollforward self 0 duty.
Proof.
  intros Hret.
  destruct (forward_result_stands k ws Hret)
    as (Hf & Hj & Hl & Htb & Hsch & Hsel & _ & Hbefore).
  rewrite rollback_walks, rollforward_walks, Hsel.
  rewrite (backward_in_range ws _ Hl) by (rewrite Hbefore; lia).
  rewrite (forward_in_range self p Hloc) by (assumption || lia).
  rewrite Hbefore, Htb, Hsch. f_equal. f_equal. lia.
Qed.

Lemma backward_then_forward (k : Z) (ws : Workshift) :
  rollback self k duty = Returned ws ->
  rollforward ws k duty = rollback self 0 duty.
Proof.
  intros Hret.
  destruct (backward_result_stands k ws Hret)
    as (Hb & Hj & Hl & Htb & Hsch & Hsel & Hafter & _).
  rewrite rollback_walks, rollforward_walks, Hsel.
  rewrite (forward_in_range ws _ Hl) by (try rewrite Hafter; assumption || lia).
  rewrite (backward_in_range self p Hloc) by lia.
  rewrite Hafter, Htb, Hsch. f_equal. f_equal. lia.
Qed.

End Sequel.

Lemma forward_zero_member (self : Workshift) (p : Z) (idx : list Z)
    (duty : string) :
  constructed self -> _loc self = PyInt p ->
  strictly_increasing idx = true -> In p idx ->
  forward_walk idx self 0 duty = Returned self.
Proof.
  intros Hc Hloc Hs Hin.
  destruct (anchors_of_member idx p Hs Hin) as (_ & Hrange & Hat).
  rewrite (forward_in_range self p Hloc) by (assumption || lia).
  rewrite Z.add_0_r, Hat. apply construct_self; assumption.
Qed.

Lemma backward_zero_member (self : Workshift) (p : Z) (idx : list Z)
    (duty : string) :
  constructed self -> _loc self = PyInt p ->
  strictly_increasing idx = true -> In p idx ->
  backward_walk idx self 0 duty = Returned self.
Proof.
  intros Hc Hloc Hs Hin.
  destruct (anchors_of_member idx p Hs Hin) as (Hsame & Hrange & Hat).
  rewrite (backward_in_range self p Hloc) by lia.
  rewrite Z.sub_0_r, <- Hsame, Hat. apply construct_self; assumption.
Qed.

(** X7: steps add up: for a duty other than ['same'] and ['alt'], on a
    strictly increasing resolved sequence, once [rollforward] with [a]
    steps returned a workshift, rolling that one forward by [b] steps
    returns exactly what [rollforward] with [a + b] steps from the start
    returns. *)
Theorem rollforward_steps_add_up (self : Workshift) (p a b : Z)
    (duty : string) (mid : Workshift) :
  _loc self = PyInt p ->
  strictly_increasing (selected_index self duty) = true ->
  fixed_duty duty = true ->
  rollforward self a duty = Returned mid ->
  forall ws, rollforward mid b duty = Returned ws
             <-> rollforward self (a + b) duty = Returned ws.
Proof.
  intros Hloc Hs Hfixed Hmid ws.
  destruct (forward_result_stands self p duty Hloc Hs Hfixed a mid Hmid)
    as (Hf & Hj & Hl & Htb & Hsch & Hsel & Hafter & _).
  rewrite !rollforward_walks, Hsel.
  set (seq := selected_index self duty) in *.
  set (f := positionOfOrAfter seq p) in *.
  destruct (Z.le_gt_cases 0 (f + a + b)) as [Hlow | Hlow];
    [destruct (Z.lt_ge_cases (f + a + b) (len seq)) as [Hhigh | Hhigh] |].
  - rewrite (forward_in_range mid _ Hl) by (try rewrite Hafter; assumption || lia).
    rewrite (forward_in_range self p Hloc) by (assumption || (fold f; lia)).
    rewrite Hafter, Htb, Hsch. fold f.
    replace (f + (a + b)) with (f + a + b) by lia. reflexivity.
  - rewrite (forward_out_of_range mid _ Hl)
      by (try rewrite Hafter; assumption || (right; lia)).
    rewrite (forward_out_of_range self p Hloc)
      by (assumption || (right; fold f; lia)).
    split; discriminate.
  - rewrite (forward_out_of_range mid _ Hl)
      by (try rewrite Hafter; assumption || (right; lia)).
    rewrite (forward_out_of_range self p Hloc)
      by (assumption || (right; fold f; lia)).
    split; discriminate.
Qed.

Lemma rollforward_steps_add_up_witness :
  rollforward (Sample.ws 4) 2 "on" = Returned (Sample.ws 8)
  <-> rollforward (Sample.ws 3) (0 + 2) "on" = Returned (Sample.ws 8).
Proof.
  apply (rollforward_steps_add_up (Sample.ws 3) 3 0 2 "on" (Sample.ws 4));
    reflexivity.
Defined.

(** X8: there and back: for a duty other than ['same'] and ['alt'], on a
    strictly increasing resolved sequence, rolling the result of
    [rollforward(steps=k)] back by [k] steps ends where
    [rollforward(steps=0)] from the start ends. *)
Theorem rollforward_then_rollback (self : Workshift) (p k : Z)
    (duty : string) (ws : Workshift) :
  _loc self = PyInt p ->
  strictly_increasing (selected_index self duty) = true ->
  fixed_duty duty = true ->
  rollforward self k duty = Returned ws ->
  rollback ws k duty = rollforward self 0 duty.
Proof.
  intros Hloc Hs Hfixed Hret.
  exact (forward_then_backward self p duty Hloc Hs Hfixed k ws Hret).
Qed.

Lemma rollforward_then_rollback_witness :
  rollback (Sample.ws 8) 2 "on" = rollforward (Sample.ws 3) 0 "on".
Proof.
  apply (rollforward_then_rollback (Sample.ws 3) 3 2 "on" (Sample.ws 8));
    reflexivity.
Defined.

(** X9: back and there: for a duty other than ['same'] and ['alt'], on a
    strictly increasing resolved sequence, rolling the result of
    [rollback(steps=k)] forward by [k] steps ends where
    [rollback(steps=0)] from the start ends. *)
Theorem rollback_then_rollforward (self : Workshift) (p k : Z)
    (duty : string) (ws : Workshift) :
  _loc self = PyInt p ->
  strictly_increasing (selected_index self duty) = true ->
  fixed_duty duty = true ->
  rollback self k duty = Returned ws ->
  rollforward ws k duty = rollback self 0 duty.
Proof.
  intros Hloc Hs Hfixed Hret.
  exact (backward_then_forward self p duty Hloc Hs Hfixed k ws Hret).
Qed.

Lemma rollback_then_rollforward_witness :
  rollforward (Sample.ws 1) 1 "off" = rollback (Sample.ws 4) 0 "off".
Proof.
  apply (rollback_then_rollforward (Sample.ws 4) 4 1 "off" (Sample.ws 1));
    reflexivity.
Defined.

(** X10: the operators undo each other on an on-duty workshift: if [ws]
    is a workshift as constructed whose position is in the strictly
    increasing on-duty index and [ws + k] returns a workshift, then
    [(ws + k) - k] is [ws]; likewise [(ws - k) + k] is [ws]. *)
Theorem add_and_sub_undo_each_other (self : Workshift) (p k : Z)
    (ws : Workshift) :
  constructed self ->
  _loc self = PyInt p ->
  strictly_increasing (on_duty_index (_schedule self)) = true ->
  In p (on_duty_index (_schedule self)) ->
  (Workshift_add self (OpVal (PyInt k)) = Computed (Returned ws) ->
   Workshift_sub ws (OpVal (PyInt k)) = Computed (Returned self))
  /\ (Workshift_sub self (OpVal (PyInt k)) = Computed (Returned ws) ->
      Workshift_add ws (OpVal (PyInt k)) = Computed (Returned self)).
Proof.
  intros Hc Hloc Hs Hin. unfold Workshift_add, Workshift_sub. split.
  - intros H. injection H as Hret. f_equal.
    rewrite (forward_then_backward self p "on" Hloc Hs eq_refl k ws Hret).
    rewrite rollforward_walks. apply (forward_zero_member self p); assumption.
  - intros H. injection H as Hret. f_equal.
    rewrite (backward_then_forward self p "on" Hloc Hs eq_refl k ws Hret).
    rewrite rollback_walks. apply (backward_zero_member self p); assumption.
Qed.

Lemma add_and_sub_undo_each_other_witness :
  Workshift_sub (Sample.ws 8) (OpVal (PyInt 2))
  = Computed (Returned (Sample.ws 4)).
Proof.
  apply (proj1 (add_and_sub_undo_each_other (Sample.ws 4) 4 2 (Sample.ws 8)
                  eq_refl eq_refl eq_refl ltac:(simpl; tauto))).
  reflexivity.
Defined.

(** ** What every call keeps *)

Lemma construct_constructed (tb : Timeboard) (x : Z) (s : Schedule)
    (ws : Workshift) :
  construct tb x s = Returned ws -> constructed ws.
Proof.
  unfold construct, constructed, Workshift_init.
  destruct (label s (PyInt x)) as [l | |] eqn:Hl; intros H;
    try discriminate H.
  injection H as <-. simpl. rewrite Hl. reflexivity.
Qed.

Lemma construct_raises (tb : Timeboard) (x : Z) (s : Schedule) (e : exn) :
  construct tb x s = Raised e ->
  e <> IndexError /\ forall l, label s (PyInt x) <> LabelOk l.
Proof.
  unfold construct, Workshift_init.
  destruct (label s (PyInt x)) as [l | |]; intros H; try discriminate H;
    injection H as <-; split; discriminate.
Qed.

(** The scan lets out no exception but the [TypeError] of a comparison. *)
Lemma scan_back_raises (idx : list Z) (loc : pyval) (i : Z) (e : exn) :
  -1 <= i < len idx ->
  scan_back idx loc i = Raise e ->
  e = TypeError /\ exists repr, loc = PyNonInt repr.
Proof.
  funelim (scan_back idx loc i); intros Hrange Hraise.
  - discriminate Hraise.
  - match goal with
    | H : getitem _ _ = Raise _ |- _ =>
        rewrite getitem_in_range in H by lia; discriminate H
    end.
  - match goal with
    | IH : context [scan_back _ _ _ = Raise _ -> _] |- _ =>
        apply IH; [lia | exact Hraise]
    end.
  - discriminate Hraise.
  - match goal with
    | H : gt _ ?v = Raise _ |- _ =>
        destruct v as [z | repr]; simpl in H; [discriminate H |];
        injection H as <-
    end.
    injection Hraise as <-. split; [reflexivity | eexists; reflexivity].
Qed.

(** X11: whatever the index array and the start, a workshift returned by
    [rollforward] or [rollback] belongs to the same timeboard and the
    same schedule as the start, is a workshift as the constructor builds
    it, and stands at an entry of the sequence resolved for the duty. *)
Theorem returned_workshift_is_of_the_walked_sequence (self : Workshift)
    (steps : Z) (duty : string) (ws : Workshift) :
  rollforward self steps duty = Returned ws
  \/ rollback self steps duty = Returned ws ->
  _tb ws = _tb self
  /\ _schedule ws = _schedule self
  /\ constructed ws
  /\ exists x, _loc ws = PyInt x /\ In x (selected_index self duty).
Proof.
  rewrite rollforward_walks, rollback_walks.
  intros [Hret | Hret].
  - destruct (forward_walk_returned self _ _ _ _ Hret)
      as (i & _ & _ & Hin & Hc).
    pose proof (construct_constructed _ _ _ _ Hc) as Hcons.
    apply construct_returned in Hc. destruct Hc as (Hl & Htb & Hsch).
    split; [exact Htb |]. split; [exact Hsch |]. split; [exact Hcons |].
    eexists. split; [exact Hl | apply at_index_In; exact Hin].
  - destruct (backward_walk_returned self _ _ _ _ Hret)
      as (i & _ & _ & Hin & Hc).
    pose proof (construct_constructed _ _ _ _ Hc) as Hcons.
    apply construct_returned in Hc. destruct Hc as (Hl & Htb & Hsch).
    split; [exact Htb |]. split; [exact Hsch |]. split; [exact Hcons |].
    eexists. split; [exact Hl | apply at_index_In; exact Hin].
Qed.

Lemma returned_workshift_is_of_the_walked_sequence_witness :
  _tb (Sample.ws 6) = _tb (Sample.ws 3)
  /\ _schedule (Sample.ws 6) = _schedule (Sample.ws 3)
  /\ constructed (Sample.ws 6)
  /\ exists x, _loc (Sample.ws 6) = PyInt x
               /\ In x (selected_index (Sample.ws 3) "on").
Proof.
  apply (returned_workshift_is_of_the_walked_sequence (Sample.ws 3) 1 "on").
  left. reflexivity.
Defined.

(** X12: no [IndexError] ever leaves [rollforward] or [rollback]: with
    any start, any step count, any duty and any index arrays, the read
    [idx[...]] is guarded and the constructor turns the lookup's
    [IndexError] into [OutOfBoundsError]. *)
Theorem navigation_never_raises_IndexError (self : Workshift) (steps : Z)
    (duty : string) :
  rollforward self steps duty <> Raised IndexError
  /\ rollback self steps duty <> Raised IndexError.
Proof.
  rewrite rollforward_walks, rollback_walks.
  unfold forward_walk, backward_walk.
  set (idx := selected_index self duty). split.
  - unfold searchsorted. destruct (_loc self) as [p | repr]; [| discriminate].
    destruct (_ || _ || (_ >=? _)) eqn:Hguard; [discriminate |].
    apply orb_false_iff in Hguard. destruct Hguard as [Hguard Hhigh].
    apply orb_false_iff in Hguard. destruct Hguard as [_ Hlow].
    rewrite getitem_in_range by lia.
    intros H. apply construct_raises in H. destruct H as [H _]. congruence.
  - destruct (scan_back idx (_loc self) (len idx - 1)) as [i | e] eqn:Hscan.
    + destruct (_ || _ || (_ >=? _)) eqn:Hguard; [discriminate |].
      apply orb_false_iff in Hguard. destruct Hguard as [Hguard Hhigh].
      apply orb_false_iff in Hguard. destruct Hguard as [_ Hlow].
      rewrite getitem_in_range by lia.
      intros H. apply construct_raises in H. destruct H as [H _]. congruence.
    + apply scan_back_raises in Hscan;
        [| pose proof (len_nonneg idx); lia].
      destruct Hscan as [-> _]. discriminate.
Qed.

(** X13: from an integer position, on a schedule that resolves every
    entry of the sequence resolved for the duty, sorted index or not,
    [rollback] raises nothing at all, and neither does [rollforward]
    with a step count that fits the 64-bit index type its sum is formed
    in: each either returns a workshift or hands over to the
    out-of-bounds handler with the diagnostic of the call. *)
Theorem navigation_returns_or_delegates (self : Workshift) (p steps : Z)
    (duty : string) :
  _loc self = PyInt p ->
  resolves (_schedule self) (selected_index self duty) ->
  (fits_int64 steps = true ->
   (exists ws, rollforward self steps duty = Returned ws)
   \/ rollforward self steps duty
      = HandleOutOfBounds (forward_message self steps duty))
  /\ ((exists ws, rollback self steps duty = Returned ws)
      \/ rollback self steps duty
         = HandleOutOfBounds (backward_message self steps duty)).
Proof.
  intros Hloc Hres. rewrite rollforward_walks, rollback_walks.
  set (idx := selected_index self duty) in *.
  assert (Hreturn : forall i, 0 <= i < len idx ->
            exists ws, construct (_tb self) (at_index idx i) (_schedule self)
                       = Returned ws).
  { intros i Hi. destruct (Hres _ (at_index_In idx i Hi)) as [l Hl].
    rewrite (construct_resolved _ _ _ l Hl). eexists. reflexivity. }
  split.
  - intros _. unfold forward_walk, searchsorted. rewrite Hloc.
    destruct (_ || _ || (_ >=? _)) eqn:Hguard; [right; reflexivity |].
    apply orb_false_iff in Hguard. destruct Hguard as [Hguard Hhigh].
    apply orb_false_iff in Hguard. destruct Hguard as [_ Hlow].
    left. rewrite getitem_in_range by lia. apply Hreturn. lia.
  - rewrite (backward_walk_normal self p Hloc). cbv zeta.
    destruct (_ || _ || (_ >=? _)) eqn:Hguard; [right; reflexivity |].
    apply orb_false_iff in Hguard. destruct Hguard as [Hguard Hhigh].
    apply orb_false_iff in Hguard. destruct Hguard as [_ Hlow].
    left. apply Hreturn. lia.
Qed.

Lemma navigation_returns_or_delegates_witness :
  ((exists ws, rollforward (Sample.ws 7) 5 "any" = Returned ws)
   \/ rollforward (Sample.ws 7) 5 "any"
      = HandleOutOfBounds (forward_message (Sample.ws 7) 5 "any"))
  /\ ((exists ws, rollback (Sample.ws 7) 5 "any" = Returned ws)
      \/ rollback (Sample.ws 7) 5 "any"
         = HandleOutOfBounds (backward_message (Sample.ws 7) 5 "any")).
Proof.
  destruct (navigation_returns_or_delegates (Sample.ws 7) 7 5 "any"
              eq_refl
              (sample_resolves (selected_index (Sample.ws 7) "any") eq_refl))
    as [Hforward Hbackward].
  split; [exact (Hforward eq_refl) | exact Hbackward].
Defined.

(** ** At and beyond the ends *)

(** X14: with an empty sequence resolved for the duty there is nowhere to
    go: [rollback] hands over to the out-of-bounds handler whatever the
    start and the step count, and so does [rollforward] from any integer
    position. *)
Theorem empty_sequence_is_out_of_bounds (self : Workshift) (steps : Z)
    (duty : string) :
  selected_index self duty = [] ->
  rollback self steps duty
  = HandleOutOfBounds (backward_message self steps duty)
  /\ forall p, _loc self = PyInt p ->
               rollforward self steps duty
               = HandleOutOfBounds (forward_message self steps duty).
Proof.
  intros Hempty. rewrite rollforward_walks, rollback_walks, Hempty. split.
  - unfold backward_walk.
    change (scan_back [] (_loc self) (len (@nil Z) - 1)) with (@Ok Z (-1)).
    reflexivity.
  - intros p Hloc. unfold forward_walk, searchsorted. rewrite Hloc.
    change (binsearch_left [] p 0 (len (@nil Z))) with 0. reflexivity.
Qed.

Lemma empty_sequence_is_out_of_bounds_witness :
  let nobody_on :=
    {| _label := PyInt 1; _tb := Sample.tb; _loc := PyInt 3;
       _schedule :=
         {| label := label Sample.schedule;
            is_on_duty := fun _ => false;
            is_off_duty := fun _ => true;
            on_duty_index := [];
            off_duty_index := index Sample.schedule;
            index := index Sample.schedule;
            activity := "idle" |} |} in
  rollback nobody_on 0 "on"
  = HandleOutOfBounds (backward_message nobody_on 0 "on")
  /\ forall p, _loc nobody_on = PyInt p ->
               rollforward nobody_on 0 "on"
               = HandleOutOfBounds (forward_message nobody_on 0 "on").
Proof.
  intros nobody_on.
  apply (empty_sequence_is_out_of_bounds nobody_on 0 "on"). reflexivity.
Defined.

Section Beyond.

Variable seq : list Z.
Variable p : Z.

Lemma positionOfOrAfter_before_all :
  none_at_or_before seq p -> positionOfOrAfter seq p = 0.
Proof.
  intros Hnone. apply (smallest_index_ge_unique seq p).
  - apply positionOfOrAfter_smallest.
  - pose proof (len_nonneg seq). split; [lia |]. split.
    + intros j Hj. lia.
    + intros Hlt. pose proof (Hnone _ (at_index_In seq 0 ltac:(lia))). lia.
Qed.

Lemma positionOfOrBefore_after_all :
  none_at_or_after seq p -> positionOfOrBefore seq p = len seq - 1.
Proof.
  intros Hnone. apply (largest_index_le_unique seq p).
  - apply positionOfOrBefore_largest.
  - pose proof (len_nonneg seq). split; [lia |]. split.
    + intros j Hj. lia.
    + intros Hge.
      pose proof (Hnone _ (at_index_In seq (len seq - 1) ltac:(lia))). lia.
Qed.

End Beyond.

(** X15: a start before every entry (a negative location the constructor
    accepted, for one): on a strictly increasing resolved sequence [seq]
    with every entry after [p], [rollback] hands over to the
    out-of-bounds handler for every step count, and [rollforward], with
    a step count that fits the 64-bit index type its sum is formed in,
    counts from the first entry: it returns the workshift at
    [seq[steps]] when [0 <= steps < len seq] and hands over otherwise. *)
Theorem start_before_every_entry (self : Workshift) (p steps : Z)
    (duty : string) :
  _loc self = PyInt p ->
  strictly_increasing (selected_index self duty) = true ->
  none_at_or_before (selected_index self duty) p ->
  rollback self steps duty
  = HandleOutOfBounds (backward_message self steps duty)
  /\ (fits_int64 steps = true ->
      rollforward self steps duty
      = if (0 <=? steps) && (steps <? len (selected_index self duty))
        then construct (_tb self) (at_index (selected_index self duty) steps)
               (_schedule self)
        else HandleOutOfBounds (forward_message self steps duty)).
Proof.
  intros Hloc Hs Hnone. rewrite rollforward_walks, rollback_walks.
  set (seq := selected_index self duty) in *.
  pose proof (positionOfOrAfter_before_all seq p Hnone) as Hf.
  split.
  - apply (backward_out_of_range self p Hloc). left.
    apply no_backward_anchor. exact Hnone.
  - intros _. destruct (Z.leb_spec 0 steps) as [Hlow | Hlow];
      [destruct (Z.ltb_spec steps (len seq)) as [Hhigh | Hhigh] |]; simpl.
    + rewrite (forward_in_range self p Hloc) by (assumption || lia).
      rewrite Hf. reflexivity.
    + apply (forward_out_of_range self p Hloc); [assumption | right; lia].
    + apply (forward_out_of_range self p Hloc); [assumption | right; lia].
Qed.

Lemma start_before_every_entry_witness :
  rollback (Sample.ws (-1)) 0 "on"
  = HandleOutOfBounds (backward_message (Sample.ws (-1)) 0 "on")
  /\ rollforward (Sample.ws (-1)) 0 "on"
     = if (0 <=? 0) && (0 <? len (selected_index (Sample.ws (-1)) "on"))
       then construct (_tb (Sample.ws (-1)))
              (at_index (selected_index (Sample.ws (-1)) "on") 0)
              (_schedule (Sample.ws (-1)))
       else HandleOutOfBounds (forward_message (Sample.ws (-1)) 0 "on").
Proof.
  assert (Hbefore : none_at_or_before
                      (selected_index (Sample.ws (-1)) "on") (-1))
    by (intros x Hx; simpl in Hx; lia).
  destruct (start_before_every_entry (Sample.ws (-1)) (-1) 0 "on"
              eq_refl eq_refl Hbefore) as [Hbackward Hforward].
  split; [exact Hbackward | exact (Hforward eq_refl)].
Defined.

(** X16: a start after every entry: on a strictly increasing resolved
    sequence [seq] with every entry before [p], [rollforward] hands over
    to the out-of-bounds handler for every step count, and [rollback]
    counts from the last entry: it returns the workshift at
    [seq[len seq - 1 - steps]] when [0 <= steps < len seq] and hands over
    otherwise. *)
Theorem start_after_every_entry (self : Workshift) (p steps : Z)
    (duty : string) :
  _loc self = PyInt p ->
  strictly_increasing (selected_index self duty) = true ->
  none_at_or_after (selected_index self duty) p ->
  rollforward self steps duty
  = HandleOutOfBounds (forward_message self steps duty)
  /\ rollback self steps duty
     = if (0 <=? steps) && (steps <? len (selected_index self duty))
       then construct (_tb self)
              (at_index (selected_index self duty)
                 (len (selected_index self duty) - 1 - steps))
              (_schedule self)
       else HandleOutOfBounds (backward_message self steps duty).
Proof.
  intros Hloc Hs Hnone. rewrite rollforward_walks, rollback_walks.
  set (seq := selected_index self duty) in *.
  pose proof (positionOfOrBefore_after_all seq p Hnone) as Hb.
  split.
  - apply (forward_out_of_range self p Hloc); [assumption |]. left.
    apply no_forward_anchor. exact Hnone.
  - destruct (Z.leb_spec 0 steps) as [Hlow | Hlow];
      [destruct (Z.ltb_spec steps (len seq)) as [Hhigh | Hhigh] |]; simpl.
    + rewrite (backward_in_range self p Hloc) by lia.
      rewrite Hb. reflexivity.
    + apply (backward_out_of_range self p Hloc). right. lia.
    + apply (backward_out_of_range self p Hloc). right. lia.
Qed.

Lemma start_after_every_entry_witness :
  rollforward (Sample.ws 9) 1 "on"
  = HandleOutOfBounds (forward_message (Sample.ws 9) 1 "on")
  /\ rollback (Sample.ws 9) 1 "on"
     = if (0 <=? 1) && (1 <? len (selected_index (Sample.ws 9) "on"))
       then construct (_tb (Sample.ws 9))
              (at_index (selected_index (Sample.ws 9) "on")
                 (len (selected_index (Sample.ws 9) "on") - 1 - 1))
              (_schedule (Sample.ws 9))
       else HandleOutOfBounds (backward_message (Sample.ws 9) 1 "on").
Proof.
  apply (start_after_every_entry (Sample.ws 9) 9 1 "on");
    [reflexivity | reflexivity |].
  intros x Hx. simpl in Hx. lia.
Defined.

(** ** The start and the duties relative to it *)

(** X17: on a schedule whose duty flags and duty indexes agree at the
    start position, with strictly increasing duty indexes, duty ['same']
    always finds the start itself at step zero, in both directions, and
    duty ['alt'] never does: its zero-step workshift lies strictly after
    the start for [rollforward] and strictly before it for [rollback]. *)
Theorem same_finds_the_start_alt_never (self : Workshift) (p : Z) :
  constructed self ->
  _loc self = PyInt p ->
  duty_consistent_at (_schedule self) p ->
  strictly_increasing (on_duty_index (_schedule self)) = true ->
  strictly_increasing (off_duty_index (_schedule self)) = true ->
  rollforward self 0 "same" = Returned self
  /\ rollback self 0 "same" = Returned self
  /\ (forall ws, rollforward self 0 "alt" = Returned ws -> precedes self ws)
  /\ (forall ws, rollback self 0 "alt" = Returned ws -> precedes ws self).
Proof.
  intros Hc Hloc (Hoff & Hon_in & Hoff_in) Hs_on Hs_off.
  assert (Hflags : Workshift_is_off_duty self
                   = negb (Workshift_is_on_duty self))
    by (unfold Workshift_is_off_duty, Workshift_is_on_duty;
        rewrite Hloc; exact Hoff).
  pose proof (selected_index_tag self Same Hflags) as Hsame.
  pose proof (selected_index_tag self Alt Hflags) as Halt.
  simpl in Hsame, Halt. unfold Workshift_is_on_duty in Hsame, Halt.
  rewrite Hloc in Hsame, Halt.
  rewrite !rollforward_walks, !rollback_walks, Hsame, Halt.
  assert (Hsame_ok :
            let seq := if is_on_duty (_schedule self) (PyInt p)
                       then on_duty_index (_schedule self)
                       else off_duty_index (_schedule self) in
            strictly_increasing seq = true /\ In p seq).
  { destruct (is_on_duty (_schedule self) (PyInt p)) eqn:Hduty; simpl; split;
      try assumption; [apply Hon_in | apply Hoff_in]; reflexivity. }
  assert (Halt_ok :
            let seq := if is_on_duty (_schedule self) (PyInt p)
                       then off_duty_index (_schedule self)
                       else on_duty_index (_schedule self) in
            strictly_increasing seq = true /\ ~ In p seq).
  { destruct (is_on_duty (_schedule self) (PyInt p)) eqn:Hduty; simpl; split;
      try assumption; intros Hin;
      [apply Hoff_in in Hin | apply Hon_in in Hin]; discriminate Hin. }
  cbv zeta in Hsame_ok, Halt_ok.
  destruct Hsame_ok as [Hs_same Hin_same].
  destruct Halt_ok as [Hs_alt Hnot_alt].
  split; [apply (forward_zero_member self p); assumption |].
  split; [apply (backward_zero_member self p); assumption |].
  set (seq := if is_on_duty (_schedule self) (PyInt p)
              then off_duty_index (_schedule self)
              else on_duty_index (_schedule self)) in *.
  split.
  - intros ws Hret.
    destruct (forward_returned_at self p Hloc _ _ _ _ Hs_alt Hret)
      as (Hf & _ & Hcons).
    apply construct_returned in Hcons. destruct Hcons as (Hl & _ & _).
    unfold precedes. rewrite Hloc, Hl, Z.add_0_r.
    destruct (positionOfOrAfter_smallest seq p) as (_ & _ & Hat).
    assert (at_index seq (positionOfOrAfter seq p) <> p)
      by (intros Heq; apply Hnot_alt; rewrite <- Heq; apply at_index_In; lia).
    specialize (Hat ltac:(lia)). lia.
  - intros ws Hret.
    destruct (backward_returned_at self p Hloc _ _ _ _ Hret)
      as (Hb & _ & Hcons).
    apply construct_returned in Hcons. destruct Hcons as (Hl & _ & _).
    unfold precedes. rewrite Hloc, Hl, Z.sub_0_r.
    destruct (positionOfOrBefore_largest seq p) as (_ & _ & Hat).
    assert (at_index seq (positionOfOrBefore seq p) <> p)
      by (intros Heq; apply Hnot_alt; rewrite <- Heq; apply at_index_In; lia).
    specialize (Hat ltac:(lia)). lia.
Qed.

Lemma same_finds_the_start_alt_never_witness :
  rollforward (Sample.ws 3) 0 "same" = Returned (Sample.ws 3)
  /\ rollback (Sample.ws 3) 0 "same" = Returned (Sample.ws 3)
  /\ (forall ws, rollforward (Sample.ws 3) 0 "alt" = Returned ws ->
                 precedes (Sample.ws 3) ws)
  /\ (forall ws, rollback (Sample.ws 3) 0 "alt" = Returned ws ->
                 precedes ws (Sample.ws 3)).
Proof.
  apply (same_finds_the_start_alt_never (Sample.ws 3) 3);
    [reflexivity | reflexivity | | reflexivity | reflexivity].
  split; [reflexivity |].
  split; split.
  - simpl. intros H. lia.
  - discriminate.
  - reflexivity.
  - intros _. simpl. lia.
Defined.

(** X18: off the sequence the two directions are one step apart: when
    the start position is not an entry of the strictly increasing
    resolved sequence and both calls succeed, [rollforward(steps=k)] and
    [rollback(steps=-(k+1))] return the same workshift. *)
Theorem sign_symmetry_off_the_sequence (self : Workshift) (p k : Z)
    (duty : string) (a b : Workshift) :
  _loc self = PyInt p ->
  strictly_increasing (selected_index self duty) = true ->
  ~ In p (selected_index self duty) ->
  rollforward self k duty = Returned a ->
  rollback self (- (k + 1)) duty = Returned b ->
  a = b.
Proof.
  intros Hloc Hs Hnot Ha Hb. rewrite rollforward_walks in Ha.
  rewrite rollback_walks in Hb.
  destruct (forward_returned_at self p Hloc _ _ _ _ Hs Ha) as (_ & _ & Hca).
  destruct (backward_returned_at self p Hloc _ _ _ _ Hb) as (_ & _ & Hcb).
  rewrite (anchors_of_non_member _ p Hs Hnot) in Hca.
  replace (positionOfOrBefore (selected_index self duty) p - - (k + 1))
    with (positionOfOrBefore (selected_index self duty) p + 1 + k)
    in Hcb by lia.
  rewrite Hca in Hcb. injection Hcb as Heq. exact Heq.
Qed.

Lemma sign_symmetry_off_the_sequence_witness :
  Sample.ws 6 = Sample.ws 6.
Proof.
  apply (sign_symmetry_off_the_sequence (Sample.ws 3) 3 1 "on");
    [reflexivity | reflexivity | simpl; lia | reflexivity | reflexivity].
Defined.

(** ** Duty ['any'] on a full index *)

Section FullIndex.

Lemma strictly_increasing_from (a n : nat) :
  strictly_increasing (map Z.of_nat (seq a n)) = true.
Proof.
  revert a. induction n as [| n IH]; intros a; [reflexivity |].
  destruct n as [| n]; [reflexivity |].
  specialize (IH (S a)). cbn [seq map] in *.
  change (((Z.of_nat a <? Z.of_nat (S a))
           && strictly_increasing
                (Z.of_nat (S a) :: map Z.of_nat (seq (S (S a)) n))) = true).
  rewrite IH, andb_true_r. apply Z.ltb_lt. lia.
Qed.

Lemma strictly_increasing_full_index (n : nat) :
  strictly_increasing (full_index n) = true.
Proof. apply strictly_increasing_from. Qed.

Lemma len_full_index (n : nat) : len (full_index n) = Z.of_nat n.
Proof. unfold len, full_index. rewrite length_map, length_seq. reflexivity. Qed.

Lemma at_index_full_index (n : nat) (j : Z) :
  0 <= j < Z.of_nat n -> at_index (full_index n) j = j.
Proof.
  intros Hj. unfold at_index, full_index.
  change 0 with (Z.of_nat 0) at 1. rewrite map_nth, seq_nth by lia. lia.
Qed.

Lemma anchors_in_full_index (n : nat) (p : Z) :
  0 <= p < Z.of_nat n ->
  positionOfOrAfter (full_index n) p = p
  /\ positionOfOrBefore (full_index n) p = p.
Proof.
  intros Hp. pose proof (at_index_full_index n p Hp) as Hat.
  pose proof (strictly_increasing_full_index n) as Hs.
  assert (Hrange : 0 <= p < len (full_index n))
    by (rewrite len_full_index; exact Hp).
  split.
  - rewrite <- Hat at 1. apply positionOfOrAfter_at; assumption.
  - rewrite <- Hat at 1. apply positionOfOrBefore_at; assumption.
Qed.

End FullIndex.

(** X19: with duty ['any'] on a schedule whose index is the full range
    [0 .. n-1], navigation is position arithmetic: from a position [p]
    of the range, [rollforward] builds the workshift at [p + steps] and
    [rollback] the one at [p - steps] when that position is in the
    range, and each hands over to the out-of-bounds handler otherwise;
    for [rollforward] the step count is one that fits the 64-bit index
    type its sum is formed in. *)
Theorem any_duty_is_position_arithmetic (self : Workshift) (n : nat)
    (p steps : Z) :
  _loc self = PyInt p ->
  index (_schedule self) = full_index n ->
  0 <= p < Z.of_nat n ->
  (fits_int64 steps = true ->
   rollforward self steps "any"
   = (if (0 <=? p + steps) && (p + steps <? Z.of_nat n)
      then construct (_tb self) (p + steps) (_schedule self)
      else HandleOutOfBounds (forward_message self steps "any")))
  /\ rollback self steps "any"
     = (if (0 <=? p - steps) && (p - steps <? Z.of_nat n)
        then construct (_tb self) (p - steps) (_schedule self)
        else HandleOutOfBounds (backward_message self steps "any")).
Proof.
  intros Hloc Hindex Hp. rewrite rollforward_walks, rollback_walks.
  change (selected_index self "any") with (index (_schedule self)).
  rewrite Hindex.
  pose proof (strictly_increasing_full_index n) as Hs.
  pose proof (len_full_index n) as Hlen.
  destruct (anchors_in_full_index n p Hp) as [Hf Hb].
  split.
  - intros _. destruct (Z.leb_spec 0 (p + steps)) as [Hlow | Hlow];
      [destruct (Z.ltb_spec (p + steps) (Z.of_nat n)) as [Hhigh | Hhigh] |];
      simpl.
    + rewrite (forward_in_range self p Hloc) by (assumption || lia).
      rewrite Hf, at_index_full_index by lia. reflexivity.
    + apply (forward_out_of_range self p Hloc); [assumption | right; lia].
    + apply (forward_out_of_range self p Hloc); [assumption | right; lia].
  - destruct (Z.leb_spec 0 (p - steps)) as [Hlow | Hlow];
      [destruct (Z.ltb_spec (p - steps) (Z.of_nat n)) as [Hhigh | Hhigh] |];
      simpl.
    + rewrite (backward_in_range self p Hloc) by lia.
      rewrite Hb, at_index_full_index by lia. reflexivity.
    + apply (backward_out_of_range self p Hloc). right. lia.
    + apply (backward_out_of_range self p Hloc). right. lia.
Qed.

Lemma any_duty_is_position_arithmetic_witness :
  rollforward (Sample.ws 3) 4 "any"
  = (if (0 <=? 3 + 4) && (3 + 4 <? Z.of_nat 10)
     then construct (_tb (Sample.ws 3)) (3 + 4) (_schedule (Sample.ws 3))
     else HandleOutOfBounds (forward_message (Sample.ws 3) 4 "any"))
  /\ rollback (Sample.ws 3) 4 "any"
     = (if (0 <=? 3 - 4) && (3 - 4 <? Z.of_nat 10)
        then construct (_tb (Sample.ws 3)) (3 - 4) (_schedule (Sample.ws 3))
        else HandleOutOfBounds (backward_message (Sample.ws 3) 4 "any")).
Proof.
  destruct (any_duty_is_position_arithmetic (Sample.ws 3) 10 3 4
              eq_refl eq_refl ltac:(lia)) as [Hforward Hbackward].
  split; [exact (Hforward eq_refl) | exact Hbackward].
Defined.
